(** * wot: the transport-map driver script and the plotting helpers

    A shallow embedding of [bin/optimal_transport.py] and of
    [wot/graphics/plot.py], with the properties the specification states
    about them.

    Conventions of the embedding:
    - a Python computation that may raise and that has side effects is a
      function [S -> outcome A * S]: the state is kept when an exception
      propagates, so a trace of the effects performed before the exception
      is still observable;
    - a Python [str] object carries its identity next to its contents, since
      the driver compares strings with [is];
    - numpy [float64] arrays are lists of exact numbers: rationals where the
      code only adds, subtracts, divides and compares, reals where it calls
      [np.exp] or [np.log].  Rounding, overflow and underflow of binary
      floating point are outside that model; what is proved on it is proved
      of the computation in exact arithmetic.  [Binary64] has [interpolate]
      on binary64 numbers, for the inputs where rounding decides. *)

From Stdlib Require Import Ascii String Reals QArith Lra Lia.
From Stdlib Require Floats.
From stdpp Require Import base option list gmap sets strings pretty.

Set Default Proof Using "Type".

(** ** Python runtime: exceptions, effects, string objects *)

Module Py.

Inductive exn : Type :=
| NameError (name : string)
| ValueError (msg : string)
| AttributeError (msg : string)
| KeyError (key : string)
| TypeError (msg : string)
| FloatingPointError (msg : string).

Inductive outcome (A : Type) : Type :=
| Returned (a : A)
| Raised (e : exn).
Arguments Returned {A} a.
Arguments Raised {A} e.

#[global] Instance outcome_ret : MRet outcome := @Returned.
#[global] Instance outcome_bind : MBind outcome :=
  fun A B k c =>
    match c with
    | Returned a => k a
    | Raised e => Raised e
    end.

(** A computation over a state [S]. *)
Definition M (S A : Type) : Type := S -> outcome A * S.

Definition ret {S A} (a : A) : M S A := fun s => (Returned a, s).

Definition bind {S A B} (c : M S A) (k : A -> M S B) : M S B :=
  fun s =>
    match c s with
    | (Returned a, s') => k a s'
    | (Raised e, s') => (Raised e, s')
    end.

Definition raise {S A} (e : exn) : M S A := fun s => (Raised e, s).
Definition lift {S A} (c : outcome A) : M S A := fun s => (c, s).
Definition get {S} : M S S := fun s => (Returned s, s).
Definition modify {S} (f : S -> S) : M S unit := fun s => (Returned tt, f s).

#[global] Instance M_ret {S} : MRet (M S) := @ret S.
#[global] Instance M_bind {S} : MBind (M S) := fun A B k c => bind c k.

(** [for x in xs: body x] *)
Fixpoint for_each {S A} (xs : list A) (body : A -> M S unit) : M S unit :=
  match xs with
  | [] => ret tt
  | x :: xs' => bind (body x) (fun _ => for_each xs' body)
  end.

(** [if c: body] with no [else] branch. *)
Definition when {S} (c : bool) (body : M S unit) : M S unit :=
  if c then body else ret tt.

(** A [str] object.  CPython keeps at most one interned object per
    contents; every string literal of a module that looks like an
    identifier is interned at compile time.  Any other string object
    (built at run time, e.g. decoded from [sys.argv]) lives at an address
    of its own. *)
Inductive pystr : Type :=
| Interned (chars : string)
| Fresh (addr : N) (chars : string).

Definition chars_of (s : pystr) : string :=
  match s with
  | Interned c => c
  | Fresh _ c => c
  end.

(** [a is b]: same object. *)
Definition py_is (a b : pystr) : bool :=
  match a, b with
  | Interned c, Interned d => bool_decide (c = d)
  | Fresh x _, Fresh y _ => bool_decide (x = y)
  | _, _ => false
  end.

(** [a == b]: same contents. *)
Definition py_eq (a b : pystr) : bool :=
  bool_decide (chars_of a = chars_of b).

(** A string literal in source text. *)
Definition literal (c : string) : pystr := Interned c.

(** A heap is well formed when one address holds one string. *)
Definition same_object_same_chars (a b : pystr) : Prop :=
  match a, b with
  | Fresh x c, Fresh y d => x = y -> c = d
  | _, _ => True
  end.

Definition TAB : string := String "009"%char EmptyString.
Definition NL : string := String "010"%char EmptyString.

End Py.

(** ** bin/optimal_transport.py *)

Module OptimalTransport.
Import Py.

(** A [pandas.DataFrame]: row labels, column labels, rows of values. *)
Record DataFrame (V : Type) : Type := mkDataFrame {
  index : list string;
  columns : list string;
  values : list (list V)
}.
Arguments mkDataFrame {V} _ _ _.
Arguments index {V} _.
Arguments columns {V} _.
Arguments values {V} _.

(** The [argparse] namespace, with the attributes the script reads. *)
Record Args : Type := mkArgs {
  args_solver : pystr;
  args_prefix : string;
  args_clusters : option string;
  args_compress : bool;
  args_verbose : bool;
  args_cluster_details : bool
}.

(** Keyword arguments of [DataFrame.to_csv] that the script sets; the
    defaults of pandas are [doublequote=True] and
    [quoting=csv.QUOTE_MINIMAL]. *)
Inductive quoting : Type := QUOTE_MINIMAL | QUOTE_NONE.

Record CsvOptions : Type := mkCsvOptions {
  index_label : string;
  sep : string;
  compression : option string;
  doublequote : bool;
  csv_quoting : quoting
}.

(** The three [to_csv] calls of the script; an event of the trace records
    which of them wrote the file. *)
Inductive artifact : Type :=
| TransportMapFile
| ClusterMapFile
| ClusterSummaryFile.

#[global] Instance artifact_eq_dec : EqDecision artifact.
Proof. solve_decision. Defined.

(** The one-column table [clusters] after [align]: one row per label,
    [None] standing for NaN. *)
Definition ClusterTable : Type := list (string * option string).

(** [DataFrame.groupby(...).groups]: cluster id to the labels of its rows,
    keys in sorted order. *)
Definition Grouping : Type := list (string * list string).

(** [clusters.align(gene_expression, join='right', axis=0)[0]]: the rows
    are re-indexed on the labels of the right-hand table, in its order; a
    label the left table does not have gets a NaN row. *)
Definition align_right (tbl : list (string * string))
    (right_index : list string) : ClusterTable :=
  flat_map
    (fun id =>
       match List.filter (fun r => bool_decide (r.1 = id)) tbl with
       | [] => [(id, None)]
       | rows => map (fun r => (id, Some r.2)) rows
       end)
    right_index.

Fixpoint group_insert (k cell : string) (gs : Grouping) : Grouping :=
  match gs with
  | [] => [(k, [cell])]
  | (k', cells) :: gs' =>
      match String.compare k k' with
      | Eq => (k', cells ++ [cell]) :: gs'
      | Lt => (k, [cell]) :: gs
      | Gt => (k', cells) :: group_insert k cell gs'
      end
  end.

(** [clusters.groupby(clusters.columns[0], axis=0)]: rows with a NaN key
    belong to no group.  The keys are cluster names, kept in the order of
    strings; pandas reads a column of numerals as numbers and orders those
    keys by value, so nothing is stated below about the order of the
    clusters. *)
Definition groupby (tbl : ClusterTable) : Grouping :=
  fold_left
    (fun gs row =>
       match row.2 with
       | Some k => group_insert k row.1 gs
       | None => gs
       end)
    tbl [].

(** Two indexes carry the same labels. *)
Definition same_labels (a b : list string) : bool :=
  forallb (fun x => bool_decide (x ∈ b)) a
  && forallb (fun x => bool_decide (x ∈ a)) b.

Section Script.
(** Numbers (time points, regularisation parameters, matrix entries) and
    the results of the weight computations are kept abstract. *)
Context {num V weights weights_by_time : Type}.

(** Python's [str] on a number. *)
Variable str : num -> string.

(** Functions of [wot.ot] the script calls; their code is not part of
    the sources at hand. *)
Variable get_column_weights :
  list string -> Grouping -> list string -> weights.
Variable transport_map_by_cluster :
  DataFrame V -> Grouping -> list string -> DataFrame V.
(** [get_weights(...)['cluster_weights_by_time']] *)
Variable get_weights :
  gset string -> list (list string) -> Grouping -> list string ->
  weights_by_time.
Variable transport_maps_by_time :
  list (DataFrame V) -> weights_by_time -> DataFrame V.

(** [cb_args['result']] *)
Record SolverResult : Type := mkSolverResult {
  transport : list (list V);
  epsilon : num;
  lambda1 : num;
  lambda2 : num
}.

(** The dictionary handed to the callback. *)
Record CbArgs : Type := mkCbArgs {
  t0 : num;
  t1 : num;
  p0_index : list string;
  p1_index : list string;
  result : SolverResult
}.

(** What the script uses of [wot.ot.OptimalTransportHelper(args)]: the
    labels of the expression table and, for each consecutive pair of
    time points in order, what the solver hands to the callback. *)
Record OptimalTransportHelper : Type := mkHelper {
  gene_expression_index : list string;
  pair_results : list CbArgs
}.

Record Inputs : Type := mkInputs {
  args : Args;
  ot_helper : OptimalTransportHelper;
  (** rows of the file named by [args.clusters], as [pd.read_table]
      parses them: cell id, cluster id *)
  clusters_file : list (string * string)
}.

Inductive event : Type :=
| EOpen (path : string)
| EWrite (path : string) (data : string)
| EClose (path : string)
| EPrint (msg : string)
| ESolve (t0 t1 : num)
| EToCsv (kind : artifact) (path : string) (frame : DataFrame V)
    (opts : CsvOptions).

(** The module-level variables of the script. *)
Record globals : Type := mkGlobals {
  params_writer : option string;
  cluster_transport_maps : list (DataFrame V);
  total_cluster_size : option weights;
  clusters : ClusterTable;
  grouped_by_cluster : Grouping;
  cluster_ids : list string;
  column_cell_ids_by_time : list (list string);
  all_cell_ids : gset string
}.

Definition state : Type := globals * list event.

Definition emit (e : event) : M state unit :=
  modify (fun st => (st.1, st.2 ++ [e])).
Definition update (f : globals -> globals) : M state unit :=
  modify (fun st => (f st.1, st.2)).
Definition read {A} (f : globals -> A) : M state A :=
  fun st => (Returned (f st.1), st).

Definition set_params_writer (v : option string) (g : globals) :=
  mkGlobals v (cluster_transport_maps g) (total_cluster_size g)
    (clusters g) (grouped_by_cluster g) (cluster_ids g)
    (column_cell_ids_by_time g) (all_cell_ids g).
Definition set_cluster_transport_maps (v : list (DataFrame V))
    (g : globals) :=
  mkGlobals (params_writer g) v (total_cluster_size g)
    (clusters g) (grouped_by_cluster g) (cluster_ids g)
    (column_cell_ids_by_time g) (all_cell_ids g).
Definition set_total_cluster_size (v : option weights) (g : globals) :=
  mkGlobals (params_writer g) (cluster_transport_maps g) v
    (clusters g) (grouped_by_cluster g) (cluster_ids g)
    (column_cell_ids_by_time g) (all_cell_ids g).
Definition set_clusters (v : ClusterTable) (g : globals) :=
  mkGlobals (params_writer g) (cluster_transport_maps g)
    (total_cluster_size g) v (grouped_by_cluster g) (cluster_ids g)
    (column_cell_ids_by_time g) (all_cell_ids g).
Definition set_grouped_by_cluster (v : Grouping) (g : globals) :=
  mkGlobals (params_writer g) (cluster_transport_maps g)
    (total_cluster_size g) (clusters g) v (cluster_ids g)
    (column_cell_ids_by_time g) (all_cell_ids g).
Definition set_cluster_ids (v : list string) (g : globals) :=
  mkGlobals (params_writer g) (cluster_transport_maps g)
    (total_cluster_size g) (clusters g) (grouped_by_cluster g) v
    (column_cell_ids_by_time g) (all_cell_ids g).
Definition set_column_cell_ids_by_time (v : list (list string))
    (g : globals) :=
  mkGlobals (params_writer g) (cluster_transport_maps g)
    (total_cluster_size g) (clusters g) (grouped_by_cluster g)
    (cluster_ids g) v (all_cell_ids g).
Definition set_all_cell_ids (v : gset string) (g : globals) :=
  mkGlobals (params_writer g) (cluster_transport_maps g)
    (total_cluster_size g) (clusters g) (grouped_by_cluster g)
    (cluster_ids g) (column_cell_ids_by_time g) v.

Definition is_not_None {A} (o : option A) : bool :=
  match o with Some _ => true | None => false end.

(** ['.gz' if args.compress else ''] *)
Definition gz_suffix (a : Args) : string :=
  if args_compress a then ".gz" else "".
(** ['gzip' if args.compress else None] *)
Definition gzip_if_compress (a : Args) : option string :=
  if args_compress a then Some "gzip" else None.

Definition params_path (a : Args) : string :=
  args_prefix a +:+ "_params.txt".
Definition params_header : string :=
  "t1" +:+ TAB +:+ "t2" +:+ TAB +:+ "epsilon" +:+ TAB +:+ "lambda1"
    +:+ TAB +:+ "lambda2" +:+ NL.
Definition params_row (c : CbArgs) : string :=
  str (t0 c) +:+ TAB +:+ str (t1 c) +:+ TAB +:+ str (epsilon (result c))
    +:+ TAB +:+ str (lambda1 (result c)) +:+ TAB
    +:+ str (lambda2 (result c)) +:+ NL.
Definition cluster_map_path (a : Args) (c : CbArgs) : string :=
  args_prefix a +:+ "_cluster_" +:+ str (t0 c) +:+ "_" +:+ str (t1 c)
    +:+ ".txt" +:+ gz_suffix a.
Definition transport_map_path (a : Args) (c : CbArgs) : string :=
  args_prefix a +:+ "_" +:+ str (t0 c) +:+ "_" +:+ str (t1 c)
    +:+ ".txt" +:+ gz_suffix a.
Definition cluster_summary_path (a : Args) : string :=
  args_prefix a +:+ "_cluster_summary.txt" +:+ gz_suffix a.

Definition cluster_csv_options (a : Args) : CsvOptions :=
  mkCsvOptions "id" TAB (gzip_if_compress a) true QUOTE_MINIMAL.
Definition transport_csv_options (a : Args) : CsvOptions :=
  mkCsvOptions "id" TAB (gzip_if_compress a) false QUOTE_NONE.

(** [args.solver is 'floating_epsilon'] *)
Definition solver_is_floating_epsilon (a : Args) : bool :=
  py_is (args_solver a) (literal "floating_epsilon").

(** The mode test as the specification asks for it:
    [args.solver == 'floating_epsilon']. *)
Definition solver_equals_floating_epsilon (a : Args) : bool :=
  py_eq (args_solver a) (literal "floating_epsilon").

(** [def callback(cb_args)] *)
Definition callback (a : Args) (cb_args : CbArgs) : M state unit :=
  when (solver_is_floating_epsilon a)
    (w ← read params_writer;
     match w with
     | None =>
         raise (AttributeError
                  "'NoneType' object has no attribute 'write'")
     | Some h => emit (EWrite h (params_row cb_args))
     end);;
  let transport_map :=
    mkDataFrame (p0_index cb_args) (p1_index cb_args)
      (transport (result cb_args)) in
  when (is_not_None (args_clusters a))
    (grouped ← read grouped_by_cluster;
     ids ← read cluster_ids;
     let cluster_transport_map :=
       transport_map_by_cluster transport_map grouped ids in
     update (fun g =>
       set_all_cell_ids
         (all_cell_ids g ∪ list_to_set (columns transport_map)) g);;
     update (fun g =>
       set_all_cell_ids
         (all_cell_ids g ∪ list_to_set (index transport_map)) g);;
     update (fun g =>
       set_column_cell_ids_by_time
         (column_cell_ids_by_time g ++ [columns transport_map]) g);;
     when (args_verbose a)
       (emit (EPrint "Summarized transport map by cluster"));;
     when (args_cluster_details a)
       (when (args_verbose a)
          (emit (EPrint "Saving cluster transport map"));;
        emit (EToCsv ClusterMapFile (cluster_map_path a cb_args)
                cluster_transport_map (cluster_csv_options a)));;
     update (fun g =>
       set_cluster_transport_maps
         (cluster_transport_maps g ++ [cluster_transport_map]) g));;
  when (args_verbose a) (emit (EPrint "Saving transport map"));;
  emit (EToCsv TransportMapFile (transport_map_path a cb_args)
          transport_map (transport_csv_options a)).

(** Modelled from the spec: [ot_helper.compute_transport_maps(callback)],
    a method of [wot.ot.OptimalTransportHelper], whose code is not among
    the sources.  The pairs are solved one after the other, the callback
    running on each result before the next pair is solved. *)
Definition compute_transport_maps (h : OptimalTransportHelper)
    (cb : CbArgs -> M state unit) : M state unit :=
  for_each (pair_results h)
    (fun c => emit (ESolve (t0 c) (t1 c));; cb c).

(** The statements of the script, top to bottom. *)
Definition main (inp : Inputs) : M state unit :=
  let a := args inp in
  update (set_params_writer None);;
  when (solver_is_floating_epsilon a)
    (emit (EOpen (params_path a));;
     update (set_params_writer (Some (params_path a)));;
     w ← read params_writer;
     match w with
     | None =>
         raise (AttributeError
                  "'NoneType' object has no attribute 'write'")
     | Some h => emit (EWrite h params_header)
     end);;
  update (set_cluster_transport_maps []);;
  update (set_total_cluster_size None);;
  when (is_not_None (args_clusters a))
    (update (set_clusters
               (align_right (clusters_file inp)
                  (gene_expression_index (ot_helper inp))));;
     tbl ← read clusters;
     update (set_grouped_by_cluster (groupby tbl));;
     grouped ← read grouped_by_cluster;
     update (set_cluster_ids (map fst grouped));;
     ids ← read cluster_ids;
     update (set_total_cluster_size
               (Some (get_column_weights (map fst tbl) grouped ids))));;
  update (set_column_cell_ids_by_time []);;
  update (set_all_cell_ids ∅);;
  compute_transport_maps (ot_helper inp) (callback a);;
  w ← read params_writer;
  match w with
  | Some h => emit (EClose h)
  | None => ret tt
  end;;
  when (is_not_None (args_clusters a))
    (when (args_verbose a)
       (emit (EPrint "Saving summarized transport map"));;
     cells ← read all_cell_ids;
     by_time ← read column_cell_ids_by_time;
     grouped ← read grouped_by_cluster;
     ids ← read cluster_ids;
     let cluster_weights_by_time :=
       get_weights cells by_time grouped ids in
     maps ← read cluster_transport_maps;
     let combined_cluster_map :=
       transport_maps_by_time maps cluster_weights_by_time in
     emit (EToCsv ClusterSummaryFile (cluster_summary_path a)
             combined_cluster_map (cluster_csv_options a))).

(** One run of the script from the module state [g0] left by whatever
    ran before; the trace holds the effects of this run. *)
Definition run (inp : Inputs) (g0 : globals) : outcome unit * state :=
  main inp (g0, []).

Definition outcome_of (r : outcome unit * state) : outcome unit := r.1.
Definition trace_of (r : outcome unit * state) : list event := r.2.2.
Definition globals_of (r : outcome unit * state) : globals := r.2.1.

(** Projections of a trace: the files one [to_csv] call wrote, in order;
    the files opened; the rows written; the pairs solved. *)
Definition csv_files (k : artifact) (tr : list event)
    : list (string * DataFrame V * CsvOptions) :=
  omap (fun e =>
          match e with
          | EToCsv k' p f o =>
              if bool_decide (k' = k) then Some (p, f, o) else None
          | _ => None
          end) tr.
Definition opened_files (tr : list event) : list string :=
  omap (fun e => match e with EOpen p => Some p | _ => None end) tr.
Definition written_rows (tr : list event) : list (string * string) :=
  omap (fun e => match e with EWrite p d => Some (p, d) | _ => None end)
    tr.
Definition solved_pairs (tr : list event) : list (num * num) :=
  omap (fun e => match e with ESolve a b => Some (a, b) | _ => None end)
    tr.

(** *** The effects of the script, written out

    What one callback invocation and the statements around the loop add to
    the trace and do to the module variables; the script is proved to
    perform exactly these. *)

Definition transport_frame (c : CbArgs) : DataFrame V :=
  mkDataFrame (p0_index c) (p1_index c) (transport (result c)).

Definition optional {A} (b : bool) (l : list A) : list A :=
  if b then l else [].

Definition callback_events (a : Args) (grouped : Grouping)
    (ids : list string) (c : CbArgs) : list event :=
  optional (solver_is_floating_epsilon a)
    [EWrite (params_path a) (params_row c)]
  ++ optional (is_not_None (args_clusters a))
       (optional (args_verbose a)
          [EPrint "Summarized transport map by cluster"]
        ++ optional (args_cluster_details a)
             (optional (args_verbose a)
                [EPrint "Saving cluster transport map"]
              ++ [EToCsv ClusterMapFile (cluster_map_path a c)
                    (transport_map_by_cluster (transport_frame c) grouped ids)
                    (cluster_csv_options a)]))
  ++ optional (args_verbose a) [EPrint "Saving transport map"]
  ++ [EToCsv TransportMapFile (transport_map_path a c)
        (transport_frame c) (transport_csv_options a)].

Definition callback_globals (a : Args) (c : CbArgs) (g : globals)
    : globals :=
  if is_not_None (args_clusters a) then
    set_cluster_transport_maps
      (cluster_transport_maps g
       ++ [transport_map_by_cluster (transport_frame c)
             (grouped_by_cluster g) (cluster_ids g)])
      (set_column_cell_ids_by_time
         (column_cell_ids_by_time g ++ [p1_index c])
         (set_all_cell_ids
            (all_cell_ids g ∪ list_to_set (p1_index c)
             ∪ list_to_set (p0_index c)) g))
  else g.

Definition aligned_clusters (inp : Inputs) : ClusterTable :=
  align_right (clusters_file inp) (gene_expression_index (ot_helper inp)).

(** The [open] handle, if the script opened the audit file. *)
Definition writer_of (a : Args) : option string :=
  if solver_is_floating_epsilon a then Some (params_path a) else None.

(** The module variables when the loop over the pairs starts. *)
Definition prologue_globals (inp : Inputs) (g0 : globals) : globals :=
  match args_clusters (args inp) with
  | Some _ =>
      let tbl := aligned_clusters inp in
      mkGlobals (writer_of (args inp)) []
        (Some (get_column_weights (map fst tbl) (groupby tbl)
                 (map fst (groupby tbl))))
        tbl (groupby tbl) (map fst (groupby tbl)) [] ∅
  | None =>
      mkGlobals (writer_of (args inp)) [] None (clusters g0)
        (grouped_by_cluster g0) (cluster_ids g0) [] ∅
  end.

Definition prologue_events (a : Args) : list event :=
  optional (solver_is_floating_epsilon a)
    [EOpen (params_path a); EWrite (params_path a) params_header].

Definition loop_events (a : Args) (grouped : Grouping) (ids : list string)
    (cs : list CbArgs) : list event :=
  flat_map (fun c => ESolve (t0 c) (t1 c) :: callback_events a grouped ids c)
    cs.

Definition loop_globals (a : Args) (cs : list CbArgs) (g : globals)
    : globals :=
  fold_left (fun g c => callback_globals a c g) cs g.

Definition combined_cluster_map (g : globals) : DataFrame V :=
  transport_maps_by_time (cluster_transport_maps g)
    (get_weights (all_cell_ids g) (column_cell_ids_by_time g)
       (grouped_by_cluster g) (cluster_ids g)).

Definition epilogue_events (a : Args) (g : globals) : list event :=
  optional (solver_is_floating_epsilon a) [EClose (params_path a)]
  ++ optional (is_not_None (args_clusters a))
       (optional (args_verbose a) [EPrint "Saving summarized transport map"]
        ++ [EToCsv ClusterSummaryFile (cluster_summary_path a)
              (combined_cluster_map g) (cluster_csv_options a)]).

Definition final_globals (inp : Inputs) (g0 : globals) : globals :=
  loop_globals (args inp) (pair_results (ot_helper inp))
    (prologue_globals inp g0).

Definition run_events (inp : Inputs) (g0 : globals) : list event :=
  let g := prologue_globals inp g0 in
  prologue_events (args inp)
  ++ loop_events (args inp) (grouped_by_cluster g) (cluster_ids g)
       (pair_results (ot_helper inp))
  ++ epilogue_events (args inp) (final_globals inp g0).

End Script.

End OptimalTransport.

(** ** Summarising a transport map by cluster *)

Module ClusterSummarizer.
Import OptimalTransport.

Definition Zsum (l : list Z) : Z := fold_right Z.add 0%Z l.

(** [grouped_by_cluster.get_group(cluster)]: the cells of a cluster, none
    for a cluster the grouping does not have. *)
Definition members (grouped : Grouping) (cluster : string) : list string :=
  match list_find (fun g => g.1 = cluster) grouped with
  | Some (_, g) => g.2
  | None => []
  end.

(** The entries of a frame with their row and column labels. *)
Definition entries (m : DataFrame Z) : list (string * string * Z) :=
  flat_map (fun r => map (fun c => (r.1, c.1, c.2)) (zip (columns m) r.2))
    (zip (index m) (values m)).

(** The mass of the labelled entries that go from a cell of [src] to a cell
    of [dst]. *)
Definition mass_in (src dst : list string) (es : list (string * string * Z))
    : Z :=
  Zsum
    (map snd
       (List.filter
          (fun e => bool_decide (e.1.1 ∈ src) && bool_decide (e.1.2 ∈ dst))
          es)).

Definition bucket_mass (m : DataFrame Z) (src dst : list string) : Z :=
  mass_in src dst (entries m).

(** Modelled from the spec: [wot.ot.transport_map_by_cluster], which the
    script calls and whose code is not among the sources.  For each pair of
    a source and a destination cluster it sums the entries whose row cell
    belongs to the source cluster and whose column cell belongs to the
    destination cluster; both axes of the result carry the full list of
    cluster ids, a cluster without cells giving zeros.  Masses are exact
    integers. *)
Definition transport_map_by_cluster (transport_map : DataFrame Z)
    (grouped_by_cluster : Grouping) (cluster_ids : list string)
    : DataFrame Z :=
  mkDataFrame cluster_ids cluster_ids
    (map (fun s =>
            map (fun d =>
                   bucket_mass transport_map (members grouped_by_cluster s)
                     (members grouped_by_cluster d))
              cluster_ids)
       cluster_ids).

(** The sum of all entries of a frame. *)
Definition total_mass (m : DataFrame Z) : Z := Zsum (map Zsum (values m)).

(** A frame as [pd.DataFrame(values, index=..., columns=...)] accepts it:
    one row per row label, one entry per column label in each row. *)
Definition well_shaped (m : DataFrame Z) : Prop :=
  length (values m) = length (index m)
  /\ Forall (fun row => length row = length (columns m)) (values m).

(** In how many of the listed clusters a cell is. *)
Definition cluster_count (grouped : Grouping) (cluster_ids : list string)
    (cell : string) : nat :=
  length
    (List.filter (fun c => bool_decide (cell ∈ members grouped c))
       cluster_ids).

End ClusterSummarizer.

(** ** A concrete instance of the script, for the examples

    Numbers are integers printed in decimal and the summariser is the one
    above.  The weight functions of [wot.ot] are not among the sources and
    no property below depends on them: the instance counts cells for the
    column weights and keeps nothing for the weights by time. *)

Module Example.
Import Py OptimalTransport.

Definition str (n : Z) : string := pretty n.

Definition get_column_weights (cell_ids : list string) (grouped : Grouping)
    (cluster_ids : list string) : list nat :=
  map (fun c =>
         length
           (List.filter (fun x => bool_decide (x ∈ cell_ids))
              (ClusterSummarizer.members grouped c)))
    cluster_ids.

Definition get_weights (all_cell_ids : gset string)
    (column_cell_ids_by_time : list (list string)) (grouped : Grouping)
    (cluster_ids : list string) : unit := tt.

Definition transport_maps_by_time (maps : list (DataFrame Z)) (w : unit)
    : DataFrame Z :=
  match maps with
  | m :: _ => mkDataFrame (index m) (columns m) []
  | [] => mkDataFrame [] [] []
  end.

Definition run : Inputs -> globals -> outcome unit * state :=
  OptimalTransport.run str get_column_weights
    ClusterSummarizer.transport_map_by_cluster get_weights
    transport_maps_by_time.

(** The module variables of an interpreter that has run nothing yet. *)
Definition no_globals : @globals Z (list nat) :=
  mkGlobals None [] None [] [] [] [] ∅.

(** Module variables left behind by some earlier run. *)
Definition stale_globals : @globals Z (list nat) :=
  mkGlobals (Some "old_params.txt") [mkDataFrame ["k"] ["k"] [[7%Z]]]
    (Some [3]) [("z", Some "k")] [("k", ["z"])] ["k"] [["z"]] {["z"]}.

(** One pair of time points, 0 and 1, one cell at each, mass 1. *)
Definition one_pair : @CbArgs Z Z :=
  mkCbArgs 0%Z 1%Z ["a"] ["b"] (mkSolverResult [[1%Z]] 5%Z 1%Z 2%Z).

Definition two_cells : @OptimalTransportHelper Z Z :=
  mkHelper ["a"; "b"] [one_pair].

(** [--solver floating_epsilon] on the command line: [argparse] hands over
    the string object decoded from [sys.argv]. *)
Definition solver_from_argv : pystr := Fresh 1 "floating_epsilon".

Definition adaptive_from_argv : @Inputs Z Z :=
  mkInputs (mkArgs solver_from_argv "out" None false false false)
    two_cells [].

(** The solver name is the interned literal, as when it is the default
    value written in the parser's source. *)
Definition adaptive_by_default : @Inputs Z Z :=
  mkInputs (mkArgs (literal "floating_epsilon") "out" None false false false)
    two_cells [].

(** A cluster file about cells the expression table does not have. *)
Definition foreign_clusters : @Inputs Z Z :=
  mkInputs (mkArgs (literal "fixed") "out" (Some "clusters.txt")
              false false true)
    two_cells [("x", "c1"); ("y", "c2")].

(** A cluster file that covers the cells; per-pair cluster files are not
    asked for. *)
Definition clusters_without_details : @Inputs Z Z :=
  mkInputs (mkArgs (literal "fixed") "out" (Some "clusters.txt")
              false false false)
    two_cells [("a", "c1"); ("b", "c2")].

Definition clusters_with_details : @Inputs Z Z :=
  mkInputs (mkArgs (literal "fixed") "out" (Some "clusters.txt")
              false false true)
    two_cells [("a", "c1"); ("b", "c2")].

(** A map whose destination cell has no cluster. *)
Definition half_assigned_map : DataFrame Z := mkDataFrame ["a"] ["b"] [[1%Z]].
Definition half_assigned_grouping : Grouping := [("c1", ["a"])].

End Example.

(** ** wot/graphics/plot.py *)

Module Plot.
Import Py.

(** *** numpy on one-dimensional arrays *)

Definition broadcast_error {A} : outcome A :=
  Raised (ValueError "operands could not be broadcast together").

(** Two operands of a binary operation, brought to a common length: equal
    lengths are kept, an array of one element is repeated. *)
Definition broadcast2 {A} (a b : list A) : outcome (list A * list A) :=
  if bool_decide (length a = length b) then Returned (a, b)
  else match a, b with
       | [x], _ => Returned (replicate (length b) x, b)
       | _, [y] => Returned (a, replicate (length a) y)
       | _, _ => broadcast_error
       end.

(** An operand brought to the length of an [out=] array. *)
Definition broadcast_to {A} (n : nat) (v : list A) : outcome (list A) :=
  if bool_decide (length v = n) then Returned v
  else match v with
       | [x] => Returned (replicate n x)
       | _ => broadcast_error
       end.

Definition elementwise {A B} (f : A -> A -> B) (a b : list A)
    : outcome (list B) :=
  ab ← broadcast2 a b; Returned (zip_with f ab.1 ab.2).

(** [v.sum()] *)
Definition Rsum (v : list R) : R := fold_right Rplus 0%R v.
Definition Qsum (v : list Q) : Q := fold_right Qplus 0%Q v.

(** *** Kernel smoothing (real arithmetic) *)

(** [def interpolate(x, xi, yi, sigma)], evaluated in exact arithmetic;
    [Binary64.interpolate] is the same function on binary64 numbers. *)
Definition interpolate (x : R) (xi yi : list R) (sigma : R) : outcome R :=
  let val := map (fun a => (x - a)%R) xi in
  let val := map (fun v => (v * - v)%R) val in
  let diff := val in
  let sigma2 := (2 * sigma ^ 2)%R in
  let w := map (fun d => exp (d / sigma2)) diff in
  yw ← elementwise Rmult yi w;
  let fx := Rsum yw in
  Returned (fx / Rsum w)%R.

(** The vector [w] of [interpolate]. *)
Definition kernel_weights (x : R) (xi : list R) (sigma : R) : list R :=
  map (fun d => exp (d / (2 * sigma ^ 2))%R)
    (map (fun v => (v * - v)%R) (map (fun a => (x - a)%R) xi)).

(** [np.linspace(start, stop, steps)] *)
Definition linspace (start stop : R) (steps : nat) : list R :=
  map (fun i => (start + INR i * ((stop - start) / INR (steps - 1)))%R)
    (seq 0 steps).

Fixpoint fill {A} (f : R -> outcome A) (xs : list R) : outcome (list A) :=
  match xs with
  | [] => Returned []
  | x :: xs' => y ← f x; ys ← fill f xs'; Returned (y :: ys)
  end.

(** [def kernel_smooth(xi, yi, start, stop, steps, sigma)] *)
Definition kernel_smooth (xi yi : list R) (start stop : R) (steps : nat)
    (sigma : R) : outcome (list R * list R) :=
  let xlist := linspace start stop steps in
  fhat ← fill (fun x => interpolate x xi yi sigma) xlist;
  Returned (xlist, fhat).

(** The weighted average as the specification writes it, over the indices
    of the samples. *)
Definition index_sum (n : nat) (f : nat -> R) : R :=
  fold_right Rplus 0%R (map f (seq 0 n)).

Definition gaussian_weight (x : R) (xi : list R) (sigma : R) (i : nat) : R :=
  exp (- (x - nth i xi 0) ^ 2 / (2 * sigma ^ 2))%R.

Definition gaussian_weighted_average (x : R) (xi yi : list R) (sigma : R)
    : R :=
  (index_sum (length xi)
     (fun i => nth i yi 0 * gaussian_weight x xi sigma i)
   / index_sum (length xi) (gaussian_weight x xi sigma))%R.

(** [min(yi)] and [max(yi)] of a non-empty vector. *)
Definition vmin (v : list R) : R :=
  match v with
  | [] => 0%R
  | a :: r => fold_left Rmin r a
  end.
Definition vmax (v : list R) : R :=
  match v with
  | [] => 0%R
  | a :: r => fold_left Rmax r a
  end.

(** *** matplotlib calls, as a trace *)

Inductive plt_event : Type :=
| Figure (width height : nat)
| ValidationTitle (with_growth no_growth : option Q)
| Title (text : string)
| Xlabel (text : string)
| Ylabel (text : string)
| PlotLine (xs : list Q) (ys : list (option Q)) (label : string)
| Legend
| AddPolygon (vertices : list (R * R))
| Scatter (xs : list R) (ys : list (option R))
| Text (x y : R) (s : string)
| TriangleTitle (name1 name2 : string) (day : R)
| Axis (mode : string)
| Savefig (filename : string).

Definition plt (e : plt_event) : M (list plt_event) unit :=
  modify (fun tr => tr ++ [e]).

(** *** Validation ratio (rational arithmetic) *)

(** A row of the validation summary: series name, interval midpoint, mean
    distance. *)
Record Row : Type := mkRow {
  name : string;
  interval_mid : Q;
  mean : Q
}.

Fixpoint insert_by_mid (r : Row) (l : list Row) : list Row :=
  match l with
  | [] => [r]
  | h :: t =>
      if Qle_bool (interval_mid r) (interval_mid h) then r :: l
      else h :: insert_by_mid r t
  end.

(** [df.sort_values('interval_mid')].  Rows of equal midpoint keep their
    order here; pandas promises no order among them, and the alignment
    checks below read the sorted midpoints of one series at a time, which
    do not depend on it. *)
Definition sort_values (df : list Row) : list Row :=
  fold_right insert_by_mid [] df.

(** [df[df['name'] == n]] *)
Definition rows_named (n : string) (df : list Row) : list Row :=
  List.filter (fun r => bool_decide (name r = n)) df.

(** [a / b] on floats: [None] stands for the inf or nan that a zero divisor
    produces. *)
Definition true_divide (a b : Q) : option Q :=
  if Qeq_bool b 0 then None else Some (a / b)%Q.

(** Sum of an array that may hold non-finite entries. *)
Definition sum_finite (v : list (option Q)) : option Q :=
  fold_right (fun x acc => a ← x; b ← acc; Some (a + b)%Q) (Some 0%Q) v.

Definition not_aligned : exn := ValueError "Timepoints are not aligned".

(** [plt.plot(x, y, label=...)] *)
Definition plot_line (xs : list Q) (ys : list (option Q)) (label : string)
    : M (list plt_event) unit :=
  if bool_decide (length xs = length ys) then plt (PlotLine xs ys label)
  else raise (ValueError "x and y must have same first dimension").

(** [def plot_ot_validation_ratio(df, filename)]; [df.reset_index()] only
    turns the index into columns and leaves the rows as they are. *)
Definition plot_ot_validation_ratio (df : list Row) (filename : string)
    : M (list plt_event) unit :=
  let df := sort_values df in
  let interpolated_df := rows_named "I" df in
  let null_growth := rows_named "Rg" df in
  let null_no_growth := rows_named "R" df in
  d ← lift (elementwise Qminus (map interval_mid interpolated_df)
              (map interval_mid null_growth));
  when (negb (Qeq_bool (Qsum d) 0)) (raise not_aligned);;
  d ← lift (elementwise Qminus (map interval_mid interpolated_df)
              (map interval_mid null_no_growth));
  when (negb (Qeq_bool (Qsum d) 0)) (raise not_aligned);;
  plt (Figure 10 10);;
  with_growth ← lift (elementwise true_divide (map mean interpolated_df)
                        (map mean null_growth));
  no_growth ← lift (elementwise true_divide (map mean interpolated_df)
                      (map mean null_no_growth));
  plt (ValidationTitle (sum_finite with_growth) (sum_finite no_growth));;
  plt (Xlabel "time");;
  plt (Ylabel "ratio");;
  ys ← lift (elementwise true_divide (map mean interpolated_df)
               (map mean null_growth));
  plot_line (map interval_mid interpolated_df) ys "with growth";;
  ys ← lift (elementwise true_divide (map mean interpolated_df)
               (map mean null_no_growth));
  plot_line (map interval_mid interpolated_df) ys "no growth";;
  plt Legend;;
  plt (Savefig filename).

(** The series [a] and [b] match one to one: same midpoints, row by row,
    once each is sorted. *)
Definition mids (n : string) (df : list Row) : list Q :=
  map interval_mid (rows_named n (sort_values df)).

Definition midpoints_match (a b : string) (df : list Row) : bool :=
  bool_decide (length (mids a df) = length (mids b df))
  && forallb (fun p => Qeq_bool p.1 p.2) (zip (mids a df) (mids b df)).

(** *** Fate plots (real arithmetic) *)

#[global] Instance R_eq_dec : EqDecision R := Req_dec_T.

(** An annotated matrix of fates: one row per cell with its day, one
    column per population. *)
Record AnnData : Type := mkAnnData {
  obs_day : list R;
  var_names : list string;
  X : list (list R)
}.

(** [ds[:, name].X]: the column of one population. *)
Definition column (ds : AnnData) (n : string) : outcome (list R) :=
  match list_find (fun v => v = n) (var_names ds) with
  | Some (j, _) => Returned (map (fun row => nth j row 0%R) (X ds))
  | None => Raised (KeyError n)
  end.

(** [a[mask]] for a boolean mask. *)
Definition select {A} (mask : list bool) (a : list A) : list A :=
  map snd (List.filter fst (zip mask a)).

(** [ds[:, name][ds'.obs['day'] == day].X.flatten()] *)
Definition column_on_day (ds ds' : AnnData) (n : string) (day : R)
    : outcome (list R) :=
  col ← column ds n;
  Returned (select (map (fun t => bool_decide (t = day)) (obs_day ds')) col).

(** Values a global name of the module can hold. *)
Inductive pyval : Type :=
| VModule (name : string)
| VFunction (name : string)
| VDict (name : string)
| VBuiltin (name : string)
| VData (ds : AnnData).

(** The names bound at module level once [plot.py] is imported: its
    imports, its functions, its one table. *)
Definition module_globals : gmap string pyval :=
  list_to_map
    [("np", VModule "numpy"); ("pd", VModule "pandas");
     ("patches", VModule "matplotlib.patches");
     ("plt", VModule "matplotlib.pyplot"); ("wot", VModule "wot");
     ("__make_figure", VFunction "__make_figure");
     ("legend_figure", VFunction "legend_figure");
     ("interpolate", VFunction "interpolate");
     ("kernel_smooth", VFunction "kernel_smooth");
     ("ot_validation_legend", VDict "ot_validation_legend");
     ("plot_ot_validation_ratio", VFunction "plot_ot_validation_ratio");
     ("plot_ot_validation_summary_stats",
      VFunction "plot_ot_validation_summary_stats");
     ("plot_triangle", VFunction "plot_triangle");
     ("plot_log_odds", VFunction "plot_log_odds")].

(** Names of the [builtins] module: the built-in functions and constants. *)
Definition builtins : list string :=
  ["abs"; "all"; "any"; "ascii"; "bin"; "bool"; "bytearray"; "bytes";
   "callable"; "chr"; "classmethod"; "compile"; "complex"; "delattr";
   "dict"; "dir"; "divmod"; "enumerate"; "eval"; "exec"; "filter"; "float";
   "format"; "frozenset"; "getattr"; "globals"; "hasattr"; "hash"; "help";
   "hex"; "id"; "input"; "int"; "isinstance"; "issubclass"; "iter"; "len";
   "list"; "locals"; "map"; "max"; "memoryview"; "min"; "next"; "object";
   "oct"; "open"; "ord"; "pow"; "print"; "property"; "range"; "repr";
   "reversed"; "round"; "set"; "setattr"; "slice"; "sorted";
   "staticmethod"; "str"; "sum"; "super"; "tuple"; "type"; "vars"; "zip";
   "__import__"; "True"; "False"; "None"; "Ellipsis"; "NotImplemented";
   "Exception"; "ValueError"; "TypeError"; "KeyError"; "NameError";
   "IndexError"; "AttributeError"].

(** Reading a name that is not local to the function: the module's
    globals, then the builtins, else [NameError]. *)
Definition load_global {S} (n : string) : M S pyval :=
  match module_globals !! n with
  | Some v => ret v
  | None =>
      if bool_decide (n ∈ builtins) then ret (VBuiltin n)
      else raise (NameError n)
  end.

Definition use {S} (n : string) : M S unit :=
  _ ← load_global n; ret tt.

Definition as_data (v : pyval) : outcome AnnData :=
  match v with
  | VData ds => Returned ds
  | _ => Raised (TypeError "object is not subscriptable")
  end.

(** The corners of the triangle. *)
Definition corners : list (R * R) :=
  [(1, 0); (cos (2 * PI / 3), sin (2 * PI / 3));
   (cos (4 * PI / 3), sin (4 * PI / 3))]%R.

(** [(ff @ P)] for [ff = [a, b, 1 - (a + b)]]. *)
Definition convex_combination (a b : R) : R * R :=
  match corners with
  | [p0; p1; p2] =>
      (a * p0.1 + b * p1.1 + (1 - (a + b)) * p2.1,
       a * p0.2 + b * p1.2 + (1 - (a + b)) * p2.2)%R
  | _ => (0, 0)%R
  end.

(** [if filename is not None: plt.savefig(filename)] *)
Definition save_if_named (filename : option string)
    : M (list plt_event) unit :=
  match filename with
  | Some f => use "plt";; plt (Savefig f)
  | None => ret tt
  end.

(** [def plot_triangle(fates_ds, day, name1, name2, filename=None)].  The
    parameters are the only local names next to the ones the body assigns;
    [plt], [fate_ds], [np] and [math] are read as globals. *)
Definition plot_triangle (fates_ds : AnnData) (day : R) (name1 name2 : string)
    (filename : option string) : M (list plt_event) unit :=
  use "plt";; plt (Figure 10 10);;
  v ← load_global "fate_ds"; ds ← lift (as_data v);
  v ← load_global "fate_ds"; ds' ← lift (as_data v);
  fate1 ← lift (column_on_day ds ds' name1 day);
  v ← load_global "fate_ds"; ds ← lift (as_data v);
  v ← load_global "fate_ds"; ds' ← lift (as_data v);
  fate2 ← lift (column_on_day ds ds' name2 day);
  use "len";; use "np";; use "np";;
  use "np";; use "np";; use "math";; use "math";; use "math";;
  use "math";; use "math";; use "math";; use "math";;
  let P := corners in
  use "range";;
  let xy := zip_with convex_combination fate1 fate2 in
  let x := map fst xy in
  let y := map snd xy in
  use "plt";; use "plt";; plt (AddPolygon P);;
  let vx := map fst P in
  let vy := map snd P in
  use "plt";; plt (Scatter vx (map Some vy));;
  use "plt";; plt (Scatter x (map Some y));;
  use "plt";; plt (Text (nth 0 vx 0 + 0.1) (nth 0 vy 0) name1)%R;;
  use "plt";; plt (Text (nth 1 vx 0 - 0.1) (nth 1 vy 0 + 0.1) name2)%R;;
  use "plt";; plt (Text (nth 2 vx 0 - 0.1) (nth 2 vy 0 - 0.2) "Other")%R;;
  use "plt";; plt (Axis "equal");;
  use "plt";; plt (Axis "off");;
  use "plt";; plt (TriangleTitle name1 name2 day);;
  save_if_named filename.

(** [a / b] where numpy is set to raise on a zero divisor. *)
Definition checked_divide (a b : R) : outcome R :=
  if bool_decide (b = 0%R)
  then Raised (FloatingPointError "divide by zero encountered in divide")
  else Returned (a / b)%R.

Fixpoint divide_where (a b out : list R) (mask : list bool)
    : outcome (list R) :=
  match a, b, out, mask with
  | x :: a', y :: b', o :: out', m :: mask' =>
      q ← (if m : bool then checked_divide x y else Returned o);
      qs ← divide_where a' b' out' mask';
      Returned (q :: qs)
  | _, _, _, _ => Returned []
  end.

(** [np.divide(a, b, out=out, where=mask)]: the quotient is computed where
    the mask holds; elsewhere the entry of [out] is left as it is. *)
Definition np_divide (a b out : list R) (mask : list bool)
    : outcome (list R) :=
  a' ← broadcast_to (length out) a;
  b' ← broadcast_to (length out) b;
  mask' ← broadcast_to (length out) mask;
  divide_where a' b' out mask'.

(** [np.log]: [None] stands for the nan or -inf of a non-positive
    argument. *)
Definition np_log (x : R) : option R :=
  if Rlt_dec 0 x then Some (ln x) else None.

(** [b != 0] *)
Definition nonzero (b : R) : bool := negb (bool_decide (b = 0%R)).

(** [np.log(1e-9 + np.divide(fate1, fate2, out=np.zeros_like(fate1),
    where=fate2 != 0))] *)
Definition log_odds (fate1 fate2 : list R) : outcome (list (option R)) :=
  let out := map (fun _ => 0%R) fate1 in
  let mask := map nonzero fate2 in
  q ← np_divide fate1 fate2 out mask;
  Returned (map (fun v => np_log (1e-9 + v)) q).

(** [def plot_log_odds(fate_ds, name1, name2, filename=None)] *)
Definition plot_log_odds (fate_ds : AnnData) (name1 name2 : string)
    (filename : option string) : M (list plt_event) unit :=
  use "plt";; plt (Figure 10 10);;
  fate1 ← lift (column fate_ds name1);
  fate2 ← lift (column fate_ds name2);
  use "np";; use "np";; use "np";;
  p ← lift (log_odds fate1 fate2);
  use "plt";; plt (Scatter (obs_day fate_ds) p);;
  use "plt";; plt (Xlabel "Day");;
  use "plt";; plt (Ylabel "Log Odds");;
  use "plt";; plt (Title (name1 +:+ " vs. " +:+ name2));;
  save_if_named filename.

End Plot.

(** ** A validation table for the examples *)

Module PlotExample.
Import Plot.

(** Interpolated rows at midpoints 1 and 4, null rows with growth at 2 and
    3, null rows without growth at 1 and 4. *)
Definition crossed_midpoints : list Row :=
  [mkRow "I" 1 2; mkRow "Rg" 2 1; mkRow "Rg" 3 3; mkRow "I" 4 6;
   mkRow "R" 1 2; mkRow "R" 4 2]%Q.

End PlotExample.

(** ** Views of a run of the script *)

Module OptimalTransportViews.
Import Py OptimalTransport.

(** The namespace with [verbose] set to [b]. *)
Definition with_verbose (b : bool) (a : Args) : Args :=
  mkArgs (args_solver a) (args_prefix a) (args_clusters a) (args_compress a)
    b (args_cluster_details a).

Section Views.
Context {num V : Type}.

Definition with_args (a : Args) (inp : @Inputs num V) : @Inputs num V :=
  mkInputs a (ot_helper inp) (clusters_file inp).

Definition is_print (e : @event num V) : bool :=
  match e with
  | EPrint _ => true
  | _ => false
  end.

(** A trace without what was printed. *)
Definition silent (tr : list (@event num V)) : list (@event num V) :=
  List.filter (fun e => negb (is_print e)) tr.

(** What happens to [params_writer]: [open], [write], [close]. *)
Definition file_events (tr : list (@event num V)) : list (@event num V) :=
  List.filter
    (fun e =>
       match e with
       | EOpen _ | EWrite _ _ | EClose _ => true
       | _ => false
       end) tr.

(** Every [to_csv] call: which one, where, with what options. *)
Definition csv_calls (tr : list (@event num V))
    : list (artifact * string * CsvOptions) :=
  omap (fun e =>
          match e with
          | EToCsv k p _ o => Some (k, p, o)
          | _ => None
          end) tr.

(** The cells of the maps of a list of pairs. *)
Definition cells_of (cs : list (@CbArgs num V)) : gset string :=
  list_to_set (flat_map (fun c => p1_index c ++ p0_index c) cs).

End Views.

(** What every [to_csv] call of a run has in common. *)
Definition consistent_call (a : Args) (call : artifact * string * CsvOptions)
    : Prop :=
  compression call.2
  = (if args_compress a then Some "gzip" else None)
  /\ sep call.2 = TAB
  /\ index_label call.2 = "id"
  /\ exists stem,
       call.1.2
       = stem +:+ ".txt" +:+ (if args_compress a then ".gz" else "").

End OptimalTransportViews.

(** ** Grouping rows by a key *)

Module Grouped.
Import OptimalTransport.

(** [group_insert] for rows of any kind. *)
Fixpoint insert_grouped {A} (k : string) (x : A) (gs : list (string * list A))
    : list (string * list A) :=
  match gs with
  | [] => [(k, [x])]
  | (k', xs) :: gs' =>
      match String.compare k k' with
      | Eq => (k', xs ++ [x]) :: gs'
      | Lt => (k, [x]) :: gs
      | Gt => (k', xs) :: insert_grouped k x gs'
      end
  end.

(** [DataFrame.groupby(key)]: the groups in the order of their keys, each
    with its rows in the order of the table. *)
Definition group_pairs {A} (rows : list (string * A))
    : list (string * list A) :=
  fold_left (fun gs r => insert_grouped r.1 r.2 gs) rows [].

(** The rows filed under the key [k], none when the key is not there. *)
Fixpoint grouped_under {A} (gs : list (string * list A)) (k : string)
    : list A :=
  match gs with
  | [] => []
  | (k', xs) :: gs' =>
      if bool_decide (k' = k) then xs else grouped_under gs' k
  end.

(** The rows of a table with the key [k], in the order of the table. *)
Definition rows_with {A} (k : string) (rows : list (string * A)) : list A :=
  map snd (List.filter (fun r => bool_decide (r.1 = k)) rows).

(** A list of keys in strictly increasing order. *)
Fixpoint increasing (ks : list string) : bool :=
  match ks with
  | [] => true
  | k :: r =>
      match r with
      | [] => true
      | k' :: _ => String.ltb k k' && increasing r
      end
  end.

(** The rows of a cluster table that have a cluster, as key and cell. *)
Definition assigned (tbl : ClusterTable) : list (string * string) :=
  omap (fun row => k ← row.2; Some (k, row.1)) tbl.

(** The cells of the rows of a table whose cluster is [k], in row order. *)
Definition cells_with (k : string) (tbl : ClusterTable) : list string :=
  map fst (List.filter (fun r => bool_decide (r.2 = Some k)) tbl).

End Grouped.

(** ** Sample tables and data for the plots *)

Module PlotSamples.
Import Plot.

(** Each series at the midpoints 1 and 2. *)
Definition aligned : list Row :=
  [mkRow "I" 1 2; mkRow "Rg" 1 4; mkRow "R" 1 1; mkRow "I" 2 6;
   mkRow "Rg" 2 3; mkRow "R" 2 2]%Q.

(** The null series with growth sits at a later midpoint. *)
Definition late_growth : list Row :=
  [mkRow "I" 1 2; mkRow "Rg" 2 4; mkRow "R" 1 1]%Q.

(** Two cells on days 0 and 1, with their fates towards A and B. *)
Definition two_fates : AnnData :=
  mkAnnData [0%R; 1%R] ["A"; "B"] [[1%R; 3%R]; [2%R; 0%R]].

End PlotSamples.

(** ** The log odds, entry by entry *)

Module LogOdds.
Import Plot.

(** The quotients under the mask [fate2 != 0]; the entry of the zero
    array where the mask does not hold. *)
Definition guarded_quotients (fate1 fate2 : list R) : list R :=
  zip_with (fun a b => if nonzero b then (a / b)%R else 0%R) fate1 fate2.

End LogOdds.

(** ** wot/graphics/plot.py: the summary-statistics figure *)

Module PlotStats.
Import Py Plot Grouped.

(** A row of the validation summary with its standard deviation. *)
Record StatRow : Type := mkStatRow {
  stat_name : string;
  stat_mid : R;
  stat_mean : R;
  stat_std : R
}.

(** The module-level table [ot_validation_legend]: series name to colour
    and label. *)
Definition ot_validation_legend : gmap string (string * string) :=
  list_to_map
    [("P", ("#e41a1c", "between real batches"));
     ("I", ("#377eb8", "between interpolated and real"));
     ("F", ("#4daf4a", "between first and real"));
     ("L", ("#984ea3", "between last and real"));
     ("R", ("#ff7f00", "between random (no growth) and real"));
     ("Rg", ("#ffff33", "between random (with growth) and real"));
     ("A", ("#bdbdbd", "between first and last"));
     ("I1", ("#a6cee3", "between first and interpolated"));
     ("I2", ("#fb9a99", "between last and interpolated"))].

(** [patches.Patch(color=c, label=l)] *)
Record Patch : Type := mkPatch {
  patch_color : string;
  patch_label : string
}.

Inductive stats_event : Type :=
| StatsFigure (width height : nat)
| StatsTitle (text : string)
| StatsXlabel (text : string)
| StatsYlabel (text : string)
| StatsPlot (t m : list R) (fmt color : string)
| StatsFillBetween (t lower upper : list R) (color : string) (alpha : R)
| StatsLegend (handles : list Patch) (loc : nat).

(** The local dictionary [legend], in insertion order, and the calls made
    on [plt]. *)
Definition stats_state : Type :=
  list (string * (string * string)) * list stats_event.

Definition draw (e : stats_event) : M stats_state unit :=
  modify (fun st => (st.1, st.2 ++ [e])).

(** [d[k] = v] on a dictionary that keeps insertion order. *)
Fixpoint dict_set {V} (k : string) (v : V) (d : list (string * V))
    : list (string * V) :=
  match d with
  | [] => [(k, v)]
  | (k', v') :: d' =>
      if bool_decide (k' = k) then (k, v) :: d'
      else (k', v') :: dict_set k v d'
  end.

(** [def legend_figure(figure, legend_list, loc=0)], called with [plt] as
    the figure. *)
Definition legend_figure (legend_list : list (string * string)) (loc : nat)
    : M stats_state unit :=
  let patch_list := map (fun cl => mkPatch cl.1 cl.2) legend_list in
  draw (StatsLegend patch_list loc).

(** [plt.plot(t, m, fmt, color=...)] *)
Definition stats_plot (t m : list R) (fmt color : string)
    : M stats_state unit :=
  if bool_decide (length t = length m) then draw (StatsPlot t m fmt color)
  else raise (ValueError "x and y must have same first dimension").

(** The body of the loop over the groups.  A group of [groupby] has at
    least one row, so [t[len(t) - 1]] is its last midpoint. *)
Definition plot_series (bandwidth : option R) (p : string)
    (d : list StatRow) : M stats_state unit :=
  match ot_validation_legend !! p with
  | None => ret tt
  | Some entry =>
      let t := map stat_mid d in
      let m := map stat_mean d in
      let s := map stat_std d in
      modify (fun st => (dict_set p entry st.1, st.2));;
      tms ← lift
        (match bandwidth with
         | Some bw =>
             xm ← kernel_smooth t m 0 (List.last t 0%R) 1000 bw;
             xs ← kernel_smooth t s 0 (List.last t 0%R) 1000 bw;
             Returned (xs.1, xm.2, xs.2)
         | None => Returned (t, m, s)
         end);
      stats_plot tms.1.1 tms.1.2 "-o" entry.1;;
      lower ← lift (elementwise Rminus tms.1.2 tms.2);
      upper ← lift (elementwise Rplus tms.1.2 tms.2);
      draw (StatsFillBetween tms.1.1 lower upper entry.1 0.2)
  end.

(** [def plot_ot_validation_summary_stats(df, bandwidth=None)];
    [wot.graphics.legend_figure] is the function above. *)
Definition plot_ot_validation_summary_stats (df : list StatRow)
    (bandwidth : option R) : M stats_state unit :=
  draw (StatsFigure 10 10);;
  draw (StatsTitle "OT Validation");;
  draw (StatsXlabel "time");;
  draw (StatsYlabel "distance");;
  modify (fun st => ([], st.2));;
  for_each (group_pairs (map (fun r => (stat_name r, r)) df))
    (fun pd => plot_series bandwidth pd.1 pd.2);;
  st ← get;
  legend_figure (map snd st.1) 0.

(** *** What is drawn for one series *)

(** The abscissae, the means and the deviations that are drawn for the
    rows [d] of a series. *)
Definition drawn (bandwidth : option R) (d : list StatRow)
    : list R * list R * list R :=
  let t := map stat_mid d in
  let m := map stat_mean d in
  let s := map stat_std d in
  match bandwidth with
  | Some bw =>
      let grid := linspace 0 (List.last t 0%R) 1000 in
      (grid,
       map (fun x => gaussian_weighted_average x t m bw) grid,
       map (fun x => gaussian_weighted_average x t s bw) grid)
  | None => (t, m, s)
  end.

(** The groups that the legend table knows, each with its colour and
    label; the loop skips the others. *)
Definition known_groups (gs : list (string * list StatRow))
    : list (string * (string * string) * list StatRow) :=
  omap (fun g => e ← ot_validation_legend !! g.1; Some (g.1, e, g.2)) gs.

(** The series of a table that the legend table knows, in the order of
    the loop. *)
Definition known_series (df : list StatRow)
    : list (string * (string * string) * list StatRow) :=
  known_groups (group_pairs (map (fun r => (stat_name r, r)) df)).


Definition series_events (bandwidth : option R)
    (g : string * (string * string) * list StatRow) : list stats_event :=
  let tms := drawn bandwidth g.2 in
  [StatsPlot tms.1.1 tms.1.2 "-o" g.1.2.1;
   StatsFillBetween tms.1.1 (zip_with Rminus tms.1.2 tms.2)
     (zip_with Rplus tms.1.2 tms.2) g.1.2.1 0.2].

(** Projections of the calls. *)
Definition plot_calls (tr : list stats_event)
    : list (list R * list R * string) :=
  omap (fun e =>
          match e with
          | StatsPlot t m _ c => Some (t, m, c)
          | _ => None
          end) tr.

Definition band_calls (tr : list stats_event)
    : list (list R * list R * list R * string) :=
  omap (fun e =>
          match e with
          | StatsFillBetween t lo hi c _ => Some (t, lo, hi, c)
          | _ => None
          end) tr.


End PlotStats.

(** ** The cluster summariser, for any kind of mass *)

Module Summarizer.
Import OptimalTransport.

Section Masses.
Context {V : Type}.
Variable zero : V.
Variable add : V -> V -> V.

(** The sum of a list of masses. *)
Definition vsum (l : list V) : V := fold_right add zero l.

(** The entries of a frame with their row and column labels. *)
Definition entries (m : DataFrame V) : list (string * string * V) :=
  flat_map (fun r => map (fun c => (r.1, c.1, c.2)) (zip (columns m) r.2))
    (zip (index m) (values m)).

(** The mass of the labelled entries that go from a cell of [src] to a cell
    of [dst]. *)
Definition mass_in (src dst : list string) (es : list (string * string * V))
    : V :=
  vsum
    (map snd
       (List.filter
          (fun e => bool_decide (e.1.1 ∈ src) && bool_decide (e.1.2 ∈ dst))
          es)).

Definition bucket_mass (m : DataFrame V) (src dst : list string) : V :=
  mass_in src dst (entries m).

(** Modelled from the spec: [wot.ot.transport_map_by_cluster], which the
    script calls and whose code is not among the sources.  For each pair of
    a source and a destination cluster it sums the entries whose row cell
    belongs to the source cluster and whose column cell belongs to the
    destination cluster; both axes of the result carry the full list of
    cluster ids, a cluster without cells giving zeros.  The masses are of
    any type with a zero and an addition;
    [ClusterSummarizer.transport_map_by_cluster] is this function on
    integers. *)
Definition transport_map_by_cluster (transport_map : DataFrame V)
    (grouped_by_cluster : Grouping) (cluster_ids : list string)
    : DataFrame V :=
  mkDataFrame cluster_ids cluster_ids
    (map (fun s =>
            map (fun d =>
                   bucket_mass transport_map
                     (ClusterSummarizer.members grouped_by_cluster s)
                     (ClusterSummarizer.members grouped_by_cluster d))
              cluster_ids)
       cluster_ids).

(** The sum of all entries of a frame. *)
Definition total_mass (m : DataFrame V) : V := vsum (map vsum (values m)).

(** A frame as [pd.DataFrame(values, index=..., columns=...)] accepts it:
    one row per row label, one entry per column label in each row. *)
Definition well_shaped (m : DataFrame V) : Prop :=
  length (values m) = length (index m)
  /\ Forall (fun row => length row = length (columns m)) (values m).

End Masses.

(** Masses as real numbers, added exactly. *)
Definition real_summary
    : DataFrame R -> Grouping -> list string -> DataFrame R :=
  transport_map_by_cluster 0%R Rplus.

Definition real_total : DataFrame R -> R := total_mass 0%R Rplus.

(** A map of mass 1 whose destination cell has no cluster. *)
Definition half_assigned_map : DataFrame R := mkDataFrame ["a"] ["b"] [[1%R]].
Definition half_assigned_grouping : Grouping := [("c1", ["a"])].

(** A map of mass 5 whose three cells have a cluster each. *)
Definition assigned_map : DataFrame R :=
  mkDataFrame ["a"; "b"] ["c"] [[2%R]; [3%R]].
Definition assigned_grouping : Grouping :=
  [("k1", ["a"; "b"]); ("k2", ["c"])].

End Summarizer.

(** ** Kernel smoothing in binary64

    [interpolate] once more, on the floating-point numbers the code runs
    on.  The arithmetic is that of IEEE 754 binary64, rounding to nearest.
    What numpy and the C library leave open is left open here: a value the
    model does not determine is [None]. *)

Module Binary64.
Import Py OptimalTransport Plot PrimFloat.

#[local] Set Warnings "-inexact-float".

(** [np.exp] on one entry, where every C library agrees: 1 at zero (of
    either sign), and 0 far below the point where the exponential is less
    than half the least positive binary64 number (about -745.13). *)
Definition np_exp (x : float) : option float :=
  if (x =? 0)%float then Some 1%float
  else if (x <? -1000)%float then Some 0%float
  else None.

(** [a.sum()] on fewer than eight entries, which numpy adds from left to
    right starting from zero; longer arrays are added in blocks. *)
Definition np_sum (a : list float) : option float :=
  if bool_decide (length a < 8) then Some (fold_left add a 0%float)
  else None.

(** [def interpolate(x, xi, yi, sigma)]; [sigma ** 2] is the product of
    [sigma] with itself. *)
Definition interpolate (x : float) (xi yi : list float) (sigma : float)
    : option (outcome float) :=
  let val := map (fun a => (x - a)%float) xi in
  let val := map (fun v => (v * - v)%float) val in
  let diff := val in
  let sigma2 := (2 * (sigma * sigma))%float in
  w ← mapM (fun d => np_exp (d / sigma2)%float) diff;
  match elementwise mul yi w with
  | Raised e => Some (Raised e)
  | Returned yw =>
      fx ← np_sum yw;
      total ← np_sum w;
      Some (Returned (fx / total)%float)
  end.

(** [min(yi) <= r <= max(yi)], which is false when [r] is nan. *)
Definition within (yi : list float) (r : float) : bool :=
  existsb (fun y => (y <=? r)%float) yi
  && existsb (fun y => (r <=? y)%float) yi.

(** The summariser of [Summarizer] with binary64 addition, and a map of
    one row whose three cells are in three clusters, two of its columns in
    the same one. *)
Definition float_summary
    : DataFrame float -> Grouping -> list string -> DataFrame float :=
  Summarizer.transport_map_by_cluster 0%float add.

Definition float_total : DataFrame float -> float :=
  Summarizer.total_mass 0%float add.

Definition three_masses : DataFrame float :=
  mkDataFrame ["a"] ["b"; "c"; "d"] [[0.1; 0.2; 0.3]%float].

Definition three_masses_grouping : Grouping :=
  [("k1", ["a"]); ("k2", ["b"; "c"]); ("k3", ["d"])].

End Binary64.

(** * Properties of the driver script *)

Module OptimalTransportFacts.
Import Py OptimalTransport.

Ltac step_monad :=
  cbv [mbind M_bind mret M_ret bind ret raise lift get modify when
       read emit update is_not_None optional fst snd
       params_writer cluster_transport_maps total_cluster_size
       clusters grouped_by_cluster cluster_ids column_cell_ids_by_time
       all_cell_ids set_params_writer set_cluster_transport_maps
       set_total_cluster_size set_clusters set_grouped_by_cluster
       set_cluster_ids set_column_cell_ids_by_time set_all_cell_ids
       index columns values];
  cbn [app].

Section Facts.
Context {num V weights weights_by_time : Type}.
Variable str : num -> string.
Variable get_column_weights :
  list string -> Grouping -> list string -> weights.
Variable transport_map_by_cluster :
  DataFrame V -> Grouping -> list string -> DataFrame V.
Variable get_weights :
  gset string -> list (list string) -> Grouping -> list string ->
  weights_by_time.
Variable transport_maps_by_time :
  list (DataFrame V) -> weights_by_time -> DataFrame V.

Abbreviation callback :=
  (callback (weights:=weights) str transport_map_by_cluster).
Abbreviation callback_events := (callback_events str transport_map_by_cluster).
Abbreviation callback_globals :=
  (callback_globals (weights:=weights) (num:=num) transport_map_by_cluster).
Abbreviation loop_events := (loop_events str transport_map_by_cluster).
Abbreviation loop_globals :=
  (loop_globals (weights:=weights) (num:=num) transport_map_by_cluster).
Abbreviation prologue_globals :=
  (prologue_globals (num:=num) (V:=V) get_column_weights).
Abbreviation final_globals :=
  (final_globals (num:=num) get_column_weights transport_map_by_cluster).
Abbreviation epilogue_events :=
  (epilogue_events (num:=num) get_weights transport_maps_by_time).
Abbreviation run_events :=
  (run_events str get_column_weights transport_map_by_cluster get_weights
     transport_maps_by_time).
Abbreviation run :=
  (run str get_column_weights transport_map_by_cluster get_weights
     transport_maps_by_time).

(** One callback invocation, once the handle is there whenever the mode
    test holds: it returns, and adds [callback_events] to the trace. *)
Lemma callback_spec (a : Args) (c : CbArgs) (g : globals) (tr : list event) :
  (solver_is_floating_epsilon a = true ->
   params_writer g = Some (params_path a)) ->
  callback a c (g, tr)
  = (Returned tt,
     (callback_globals a c g,
      tr ++ callback_events a (grouped_by_cluster g) (cluster_ids g) c)).
Proof.
  intros Hw.
  unfold OptimalTransport.callback, OptimalTransport.callback_events,
    OptimalTransport.callback_globals, transport_frame.
  destruct g as [pw ctm tcs cls grp ids cc ac]; simpl in Hw |- *.
  destruct (solver_is_floating_epsilon a).
  - rewrite (Hw eq_refl).
    destruct (args_clusters a), (args_verbose a), (args_cluster_details a);
      step_monad; rewrite <- ?app_assoc; reflexivity.
  - destruct (args_clusters a), (args_verbose a), (args_cluster_details a);
      step_monad; rewrite <- ?app_assoc; reflexivity.
Qed.

(** The callback leaves the handle, the grouping and the cluster ids as
    they are. *)
Lemma callback_globals_frame (a : Args) (c : CbArgs) (g : globals) :
  params_writer (callback_globals a c g) = params_writer g
  /\ grouped_by_cluster (callback_globals a c g) = grouped_by_cluster g
  /\ cluster_ids (callback_globals a c g) = cluster_ids g.
Proof.
  unfold OptimalTransport.callback_globals.
  destruct (is_not_None (args_clusters a)); auto.
Qed.

(** The loop over the pairs. *)
Lemma loop_spec (a : Args) (cs : list CbArgs) :
  forall (g : globals) (tr : list event),
    (solver_is_floating_epsilon a = true ->
     params_writer g = Some (params_path a)) ->
    for_each cs (fun c => emit (ESolve (t0 c) (t1 c));; callback a c) (g, tr)
    = (Returned tt,
       (loop_globals a cs g,
        tr ++ loop_events a (grouped_by_cluster g) (cluster_ids g) cs)).
Proof.
  induction cs as [|c cs IH]; intros g tr Hw.
  - simpl. rewrite app_nil_r. reflexivity.
  - destruct (callback_globals_frame a c g) as (Hp & Hg & Hi).
    cbn [for_each]. unfold bind at 1.
    assert (Hstep :
      (emit (ESolve (t0 c) (t1 c));; callback a c) (g, tr)
      = (Returned tt,
         (callback_globals a c g,
          tr ++ ESolve (t0 c) (t1 c)
             :: callback_events a (grouped_by_cluster g) (cluster_ids g) c))).
    { cbv [mbind M_bind bind emit modify]. cbn [fst snd].
      rewrite callback_spec by exact Hw.
      rewrite <- app_assoc. reflexivity. }
    rewrite Hstep, IH by (rewrite Hp; exact Hw).
    rewrite Hg, Hi. cbn [OptimalTransport.loop_events flat_map].
    unfold OptimalTransport.loop_globals. cbn [fold_left].
    rewrite <- !app_assoc. reflexivity.
Qed.

Lemma loop_globals_frame (a : Args) (cs : list CbArgs) :
  forall g : globals,
    params_writer (loop_globals a cs g) = params_writer g
    /\ grouped_by_cluster (loop_globals a cs g) = grouped_by_cluster g
    /\ cluster_ids (loop_globals a cs g) = cluster_ids g.
Proof.
  induction cs as [|c cs IH]; intros g; [auto|].
  unfold OptimalTransport.loop_globals in *. cbn [fold_left].
  destruct (IH (callback_globals a c g)) as (-> & -> & ->).
  apply callback_globals_frame.
Qed.

Lemma compute_transport_maps_spec (a : Args) (h : OptimalTransportHelper)
    (g : globals) (tr : list event) :
  (solver_is_floating_epsilon a = true ->
   params_writer g = Some (params_path a)) ->
  compute_transport_maps h (callback a) (g, tr)
  = (Returned tt,
     (loop_globals a (pair_results h) g,
      tr ++ loop_events a (grouped_by_cluster g) (cluster_ids g)
              (pair_results h))).
Proof. apply loop_spec. Qed.

(** The whole script: it never raises, and its effects are the ones
    written out in [run_events]. *)
Lemma run_spec (inp : Inputs) (g0 : globals) :
  run inp g0 = (Returned tt, (final_globals inp g0, run_events inp g0)).
Proof.
  unfold OptimalTransport.run, OptimalTransport.run_events,
    OptimalTransport.final_globals, main,
    OptimalTransport.prologue_events, OptimalTransport.epilogue_events,
    OptimalTransport.prologue_globals, OptimalTransport.combined_cluster_map,
    writer_of, aligned_clusters.
  destruct g0 as [pw ctm tcs cls grp ids cc ac].
  destruct (solver_is_floating_epsilon (args inp)) eqn:Hfe,
    (args_clusters (args inp)) as [path|], (args_verbose (args inp));
    step_monad.
  all: rewrite compute_transport_maps_spec
    by (intros ?; reflexivity || congruence).
  all: match goal with
       | |- context [loop_globals ?a ?cs ?g] =>
           destruct (loop_globals_frame a cs g) as (Hp & Hg & Hi);
           destruct (loop_globals a cs g)
             as [pw' ctm' tcs' cls' grp' ids' cc' ac']
       end.
  all: cbn [params_writer grouped_by_cluster cluster_ids] in Hp, Hg, Hi;
    subst pw' grp' ids'.
  all: step_monad; rewrite ?app_nil_r, <- ?app_assoc; reflexivity.
Qed.


(** *** Reading a trace *)

Lemma csv_files_app (k : artifact) (tr1 tr2 : list (@event num V)) :
  csv_files k (tr1 ++ tr2) = csv_files k tr1 ++ csv_files k tr2.
Proof. apply omap_app. Qed.

Lemma csv_files_loop (k : artifact) (a : Args) (grp : Grouping)
    (ids : list string) (cs : list CbArgs) :
  csv_files k (loop_events a grp ids cs)
  = flat_map (fun c => csv_files k (callback_events a grp ids c)) cs.
Proof.
  induction cs as [|c cs IH]; [reflexivity|].
  cbn [OptimalTransport.loop_events flat_map].
  change (ESolve (t0 c) (t1 c) :: ?l) with ([ESolve (t0 c) (t1 c)] ++ l).
  rewrite <- app_assoc, !csv_files_app.
  unfold OptimalTransport.loop_events in IH. rewrite IH. reflexivity.
Qed.

Lemma solved_pairs_app (tr1 tr2 : list (@event num V)) :
  solved_pairs (tr1 ++ tr2) = solved_pairs tr1 ++ solved_pairs tr2.
Proof. apply omap_app. Qed.

Lemma solved_pairs_callback (a : Args) (grp : Grouping) (ids : list string)
    (c : CbArgs) :
  solved_pairs (callback_events a grp ids c) = [].
Proof.
  unfold OptimalTransport.callback_events.
  destruct (solver_is_floating_epsilon a), (args_clusters a),
    (args_verbose a), (args_cluster_details a); reflexivity.
Qed.

Lemma solved_pairs_loop (a : Args) (grp : Grouping) (ids : list string)
    (cs : list CbArgs) :
  solved_pairs (loop_events a grp ids cs) = map (fun c => (t0 c, t1 c)) cs.
Proof.
  induction cs as [|c cs IH]; [reflexivity|].
  cbn [OptimalTransport.loop_events flat_map map].
  change (ESolve (t0 c) (t1 c) :: ?l) with ([ESolve (t0 c) (t1 c)] ++ l).
  rewrite <- app_assoc, !solved_pairs_app, solved_pairs_callback.
  unfold OptimalTransport.loop_events in IH. rewrite IH. reflexivity.
Qed.

Lemma solved_pairs_run (inp : Inputs) (g0 : globals) :
  solved_pairs (trace_of (run inp g0))
  = map (fun c => (t0 c, t1 c)) (pair_results (ot_helper inp)).
Proof.
  rewrite run_spec. unfold trace_of, OptimalTransport.run_events.
  cbn [fst snd]. rewrite !solved_pairs_app, solved_pairs_loop.
  unfold OptimalTransport.prologue_events, OptimalTransport.epilogue_events.
  destruct (solver_is_floating_epsilon (args inp)),
    (args_clusters (args inp)), (args_verbose (args inp));
    cbn; rewrite ?app_nil_r; reflexivity.
Qed.

(** *** Alignment and grouping *)

Lemma align_right_labels (tbl : list (string * string)) (idx : list string)
    (id : string) :
  id ∈ map fst (align_right tbl idx) <-> id ∈ idx.
Proof.
  unfold align_right. rewrite !list_elem_of_In, in_map_iff. split.
  - intros ([id' v] & <- & Hin). apply in_flat_map in Hin.
    destruct Hin as (x & Hx & Hin). cbn [fst].
    destruct (List.filter _ tbl) as [|r rows].
    + destruct Hin as [[= <- _]|[]]. exact Hx.
    + apply in_map_iff in Hin. destruct Hin as (? & [= <- _] & _). exact Hx.
  - intros Hx.
    destruct (List.filter (fun r => bool_decide (r.1 = id)) tbl) as [|r rows]
      eqn:Hf.
    + exists (id, None). split; [reflexivity|].
      apply in_flat_map. exists id. rewrite Hf. split; [exact Hx|now left].
    + exists (id, Some r.2). split; [reflexivity|].
      apply in_flat_map. exists id. rewrite Hf. split; [exact Hx|now left].
Qed.

Lemma align_right_assigned (tbl : list (string * string)) (idx : list string)
    (id k : string) :
  (id, Some k) ∈ align_right tbl idx -> (id, k) ∈ tbl.
Proof.
  unfold align_right. rewrite !list_elem_of_In, in_flat_map.
  intros (x & _ & Hin).
  destruct (List.filter (fun r => bool_decide (r.1 = x)) tbl) as [|r rows]
    eqn:Hf.
  - destruct Hin as [[=]|[]].
  - apply in_map_iff in Hin. destruct Hin as ([c v] & [= <- <-] & Hr).
    rewrite <- Hf in Hr. apply filter_In in Hr. destruct Hr as [Hr Hb].
    apply bool_decide_eq_true in Hb. cbn in Hb. subst c. exact Hr.
Qed.

Lemma align_right_missing (tbl : list (string * string)) (idx : list string)
    (id : string) :
  id ∈ idx -> id ∉ map fst tbl -> (id, None) ∈ align_right tbl idx.
Proof.
  intros Hx Hno. unfold align_right.
  rewrite list_elem_of_In, in_flat_map. exists id.
  split; [now apply list_elem_of_In|].
  destruct (List.filter (fun r => bool_decide (r.1 = id)) tbl) as [|r rows]
    eqn:Hf; [now left|].
  exfalso. apply Hno.
  assert (Hr : In r (List.filter (fun r => bool_decide (r.1 = id)) tbl))
    by (rewrite Hf; now left).
  apply filter_In in Hr. destruct Hr as [Hr Hb].
  apply bool_decide_eq_true in Hb. subst id.
  apply list_elem_of_In, in_map, Hr.
Qed.

Lemma group_insert_cells (k cell : string) (gs : Grouping) (k' : string)
    (cells : list string) (c : string) :
  (k', cells) ∈ group_insert k cell gs -> c ∈ cells ->
  (c = cell /\ k' = k) \/ (exists old, (k', old) ∈ gs /\ c ∈ old).
Proof.
  induction gs as [|[k0 cells0] gs IH]; cbn [group_insert].
  - intros Hin Hc. apply list_elem_of_singleton in Hin.
    injection Hin as -> ->. apply list_elem_of_singleton in Hc. auto.
  - destruct (String.compare k k0) eqn:Hcmp; intros Hin Hc.
    + apply String.compare_eq_iff in Hcmp. subst k0.
      apply elem_of_cons in Hin. destruct Hin as [Hin|Hin].
      * injection Hin as -> ->. apply elem_of_app in Hc.
        destruct Hc as [Hc|Hc].
        -- right. exists cells0. split; [left|exact Hc].
        -- apply list_elem_of_singleton in Hc. auto.
      * right. exists cells. split; [now right|exact Hc].
    + apply elem_of_cons in Hin. destruct Hin as [Hin|Hin].
      * injection Hin as -> ->. apply list_elem_of_singleton in Hc. auto.
      * right. exists cells. split; [exact Hin|exact Hc].
    + apply elem_of_cons in Hin. destruct Hin as [Hin|Hin].
      * injection Hin as -> ->. right. exists cells0. split; [left|exact Hc].
      * destruct (IH Hin Hc) as [?|(old & Ho & Hc')]; [auto|].
        right. exists old. split; [now right|exact Hc'].
Qed.

(** A cell is in a group only through a row that names its cluster. *)
Lemma groupby_cells (tbl : ClusterTable) (k : string) (cells : list string)
    (c : string) :
  (k, cells) ∈ groupby tbl -> c ∈ cells -> (c, Some k) ∈ tbl.
Proof.
  unfold groupby.
  assert (Hgen : forall rows (gs : Grouping),
    (forall k cells c, (k, cells) ∈ gs -> c ∈ cells -> (c, Some k) ∈ tbl) ->
    (forall r, r ∈ rows -> r ∈ tbl) ->
    forall k cells c,
      (k, cells)
        ∈ fold_left
            (fun gs row =>
               match row.2 with
               | Some k => group_insert k row.1 gs
               | None => gs
               end) rows gs ->
      c ∈ cells -> (c, Some k) ∈ tbl).
  { induction rows as [|[cell [key|]] rows IH]; intros gs Hgs Hrows;
      cbn [fold_left snd fst].
    - exact Hgs.
    - apply IH.
      + intros k' cells' c' Hin Hc.
        destruct (group_insert_cells _ _ _ _ _ _ Hin Hc)
          as [[-> ->]|(old & Ho & Hc')].
        * apply Hrows. left.
        * eapply Hgs; eassumption.
      + intros r Hr. apply Hrows. now right.
    - apply IH; [exact Hgs|]. intros r Hr. apply Hrows. now right. }
  apply Hgen; [|auto].
  intros ? ? ? Hin. apply elem_of_nil in Hin. destruct Hin.
Qed.

(** *** Cluster input (C1) *)

(** C1, as the script behaves: a cluster table is never rejected, whatever
    its labels.  It is joined onto the labels of the expression table, a
    cell without a row in the cluster file gets a missing cluster and is in
    no group, the script completes without raising and every pair of time
    points is solved. *)
Theorem clusters_are_joined_not_validated (inp : Inputs) (g0 : globals)
    (path : string) :
  args_clusters (args inp) = Some path ->
  outcome_of (run inp g0) = Returned tt
  /\ solved_pairs (trace_of (run inp g0))
     = map (fun c => (t0 c, t1 c)) (pair_results (ot_helper inp))
  /\ clusters (globals_of (run inp g0))
     = align_right (clusters_file inp) (gene_expression_index (ot_helper inp))
  /\ (forall id : string,
        id ∈ map fst (clusters (globals_of (run inp g0)))
        <-> id ∈ gene_expression_index (ot_helper inp))
  /\ (forall id : string,
        id ∈ gene_expression_index (ot_helper inp) ->
        id ∉ map fst (clusters_file inp) ->
        (id, None) ∈ clusters (globals_of (run inp g0))
        /\ forall k cells,
             (k, cells) ∈ grouped_by_cluster (globals_of (run inp g0)) ->
             id ∉ cells).
Proof.
  intros Hc. rewrite solved_pairs_run. rewrite run_spec.
  unfold outcome_of, globals_of. cbn [fst snd].
  unfold OptimalTransport.final_globals.
  destruct (loop_globals_frame (args inp) (pair_results (ot_helper inp))
              (prologue_globals inp g0)) as (_ & Hg & _).
  assert (Hcl : forall cs g,
            clusters (loop_globals (args inp) cs g) = clusters g).
  { induction cs as [|c cs IH]; intros g; [reflexivity|].
    unfold OptimalTransport.loop_globals in *. cbn [fold_left].
    rewrite IH. unfold OptimalTransport.callback_globals.
    destruct (is_not_None (args_clusters (args inp))); reflexivity. }
  rewrite Hg, Hcl. unfold OptimalTransport.prologue_globals.
  rewrite Hc. cbn [clusters grouped_by_cluster]. unfold aligned_clusters.
  split; [reflexivity|]. split; [reflexivity|]. split; [reflexivity|].
  split; [apply align_right_labels|].
  intros id Hid Hno. split; [now apply align_right_missing|].
  intros k cells Hin Hcell. apply Hno.
  pose proof (groupby_cells _ _ _ _ Hin Hcell) as Hrow.
  apply align_right_assigned in Hrow.
  apply list_elem_of_In. apply list_elem_of_In in Hrow.
  change id with (fst (id, k)). now apply in_map.
Qed.

(** *** Cluster files (C2) *)

Lemma csv_files_callback_cluster (a : Args) (grp : Grouping)
    (ids : list string) (c : CbArgs) (path : string) :
  args_clusters a = Some path ->
  csv_files ClusterMapFile (callback_events a grp ids c)
  = optional (args_cluster_details a)
      [(cluster_map_path str a c,
        transport_map_by_cluster (transport_frame c) grp ids,
        cluster_csv_options a)].
Proof.
  intros Hc. unfold OptimalTransport.callback_events. rewrite Hc.
  destruct (solver_is_floating_epsilon a), (args_verbose a),
    (args_cluster_details a); reflexivity.
Qed.

Lemma csv_files_callback_summary (a : Args) (grp : Grouping)
    (ids : list string) (c : CbArgs) :
  csv_files ClusterSummaryFile (callback_events a grp ids c) = [].
Proof.
  unfold OptimalTransport.callback_events.
  destruct (solver_is_floating_epsilon a), (args_clusters a),
    (args_verbose a), (args_cluster_details a); reflexivity.
Qed.

Lemma flat_map_nil {A B} (l : list A) :
  flat_map (fun _ : A => @nil B) l = [].
Proof. induction l; auto. Qed.

Lemma flat_map_singleton {A B} (f : A -> B) (l : list A) :
  flat_map (fun x => [f x]) l = map f l.
Proof. induction l as [|x l IH]; [reflexivity|]. cbn. now rewrite IH. Qed.

(** C2, as the script behaves: when a clusters file is supplied, the
    combined cluster summary is written once, tab separated; the per-pair
    cluster-level files are written, one per pair in order and tab
    separated, exactly when [args.cluster_details] is set, and none is
    written otherwise. *)
Theorem cluster_files_follow_cluster_details (inp : Inputs) (g0 : globals)
    (path : string) :
  args_clusters (args inp) = Some path ->
  let a := args inp in
  let tr := trace_of (run inp g0) in
  let g := globals_of (run inp g0) in
  csv_files ClusterSummaryFile tr
  = [(cluster_summary_path a,
      transport_maps_by_time (cluster_transport_maps g)
        (get_weights (all_cell_ids g) (column_cell_ids_by_time g)
           (grouped_by_cluster g) (cluster_ids g)),
      cluster_csv_options a)]
  /\ csv_files ClusterMapFile tr
     = (if args_cluster_details a
        then map (fun c =>
                    (cluster_map_path str a c,
                     transport_map_by_cluster (transport_frame c)
                       (grouped_by_cluster g) (cluster_ids g),
                     cluster_csv_options a))
               (pair_results (ot_helper inp))
        else [])
  /\ sep (cluster_csv_options a) = TAB.
Proof.
  intros Hc a tr g. subst a tr g. rewrite run_spec.
  unfold trace_of, globals_of. cbn [fst snd].
  unfold OptimalTransport.run_events, OptimalTransport.final_globals.
  destruct (loop_globals_frame (args inp) (pair_results (ot_helper inp))
              (prologue_globals inp g0)) as (_ & Hg & Hi).
  rewrite Hg, Hi. rewrite !csv_files_app, !csv_files_loop.
  split; [|split; [|reflexivity]].
  - rewrite (flat_map_ext _ (fun _ => [])), flat_map_nil
      by (intros; apply csv_files_callback_summary).
    unfold OptimalTransport.prologue_events, OptimalTransport.epilogue_events,
      OptimalTransport.combined_cluster_map.
    rewrite Hc, Hg, Hi.
    destruct (solver_is_floating_epsilon (args inp)),
      (args_verbose (args inp)); reflexivity.
  - rewrite (flat_map_ext _ _
               (fun c => csv_files_callback_cluster (args inp) _ _ c path Hc)).
    unfold OptimalTransport.prologue_events, OptimalTransport.epilogue_events.
    rewrite Hc.
    destruct (args_cluster_details (args inp)).
    + cbn [optional]. rewrite flat_map_singleton.
      destruct (solver_is_floating_epsilon (args inp)),
        (args_verbose (args inp)); cbn; rewrite app_nil_r; reflexivity.
    + cbn [optional]. rewrite flat_map_nil.
      destruct (solver_is_floating_epsilon (args inp)),
        (args_verbose (args inp)); reflexivity.
Qed.

(** *** Audit file (C4) *)

Lemma opened_files_app (tr1 tr2 : list (@event num V)) :
  opened_files (tr1 ++ tr2) = opened_files tr1 ++ opened_files tr2.
Proof. apply omap_app. Qed.

Lemma written_rows_app (tr1 tr2 : list (@event num V)) :
  written_rows (tr1 ++ tr2) = written_rows tr1 ++ written_rows tr2.
Proof. apply omap_app. Qed.

Lemma audit_loop (a : Args) (grp : Grouping) (ids : list string)
    (cs : list CbArgs) :
  opened_files (loop_events a grp ids cs) = []
  /\ written_rows (loop_events a grp ids cs)
     = optional (solver_is_floating_epsilon a)
         (map (fun c => (params_path a, params_row str c)) cs).
Proof.
  induction cs as [|c cs [IHo IHw]].
  - destruct (solver_is_floating_epsilon a); split; reflexivity.
  - cbn [OptimalTransport.loop_events flat_map].
    change (ESolve (t0 c) (t1 c) :: ?l) with ([ESolve (t0 c) (t1 c)] ++ l).
    rewrite <- app_assoc, !opened_files_app, !written_rows_app.
    unfold OptimalTransport.loop_events in IHo, IHw. rewrite IHo, IHw.
    unfold OptimalTransport.callback_events.
    destruct (solver_is_floating_epsilon a), (args_clusters a),
      (args_verbose a), (args_cluster_details a); split; reflexivity.
Qed.

(** The audit file follows the identity test: when [args.solver] is the
    very object of the literal, the file is opened once and gets the
    header and one row per pair; otherwise nothing is opened or written. *)
Lemma audit_follows_identity (inp : Inputs) (g0 : globals) :
  let a := args inp in
  let tr := trace_of (run inp g0) in
  opened_files tr
  = optional (solver_is_floating_epsilon a) [params_path a]
  /\ written_rows tr
     = optional (solver_is_floating_epsilon a)
         ((params_path a, params_header)
          :: map (fun c => (params_path a, params_row str c))
               (pair_results (ot_helper inp))).
Proof.
  intros a tr. subst a tr. rewrite run_spec. unfold trace_of. cbn [fst snd].
  unfold OptimalTransport.run_events.
  rewrite !opened_files_app, !written_rows_app.
  destruct (audit_loop (args inp)
              (grouped_by_cluster (prologue_globals inp g0))
              (cluster_ids (prologue_globals inp g0))
              (pair_results (ot_helper inp))) as [-> ->].
  unfold OptimalTransport.prologue_events, OptimalTransport.epilogue_events.
  destruct (solver_is_floating_epsilon (args inp)),
    (args_clusters (args inp)), (args_verbose (args inp));
    cbn; rewrite ?app_nil_r; split; reflexivity.
Qed.

(** *** Runs do not see each other (C7) *)

Lemma loop_events_without_clusters (a : Args) (grp grp' : Grouping)
    (ids ids' : list string) (cs : list CbArgs) :
  args_clusters a = None ->
  loop_events a grp ids cs = loop_events a grp' ids' cs.
Proof.
  intros Hc. unfold OptimalTransport.loop_events.
  apply flat_map_ext. intros c.
  unfold OptimalTransport.callback_events. rewrite Hc. reflexivity.
Qed.

Lemma loop_globals_without_clusters (a : Args) (cs : list CbArgs)
    (g : globals) :
  args_clusters a = None -> loop_globals a cs g = g.
Proof.
  intros Hc. revert g. induction cs as [|c cs IH]; intros g; [reflexivity|].
  unfold OptimalTransport.loop_globals in *. cbn [fold_left].
  unfold OptimalTransport.callback_globals at 2. rewrite Hc. cbn. apply IH.
Qed.

(** C7: two runs on the same inputs, from whatever module state earlier
    runs left behind, end the same way, perform the same effects in the
    same order (the per-pair transport maps, the per-pair cluster maps, the
    audit rows, the combined summary) and end with the same accumulated
    lists and set. *)
Theorem runs_are_independent (inp : Inputs) (g1 g2 : globals) :
  outcome_of (run inp g1) = outcome_of (run inp g2)
  /\ trace_of (run inp g1) = trace_of (run inp g2)
  /\ cluster_transport_maps (globals_of (run inp g1))
     = cluster_transport_maps (globals_of (run inp g2))
  /\ column_cell_ids_by_time (globals_of (run inp g1))
     = column_cell_ids_by_time (globals_of (run inp g2))
  /\ all_cell_ids (globals_of (run inp g1))
     = all_cell_ids (globals_of (run inp g2)).
Proof.
  rewrite !run_spec. unfold outcome_of, trace_of, globals_of. cbn [fst snd].
  split; [reflexivity|].
  destruct (args_clusters (args inp)) as [path|] eqn:Hc.
  - assert (Hsame : prologue_globals inp g1 = prologue_globals inp g2).
    { unfold OptimalTransport.prologue_globals. now rewrite Hc. }
    unfold OptimalTransport.run_events, OptimalTransport.final_globals.
    rewrite Hsame. auto.
  - unfold OptimalTransport.run_events, OptimalTransport.final_globals.
    rewrite !loop_globals_without_clusters by exact Hc.
    rewrite (loop_events_without_clusters (args inp)
               (grouped_by_cluster (prologue_globals inp g1))
               (grouped_by_cluster (prologue_globals inp g2))
               (cluster_ids (prologue_globals inp g1))
               (cluster_ids (prologue_globals inp g2))) by exact Hc.
    unfold OptimalTransport.epilogue_events,
      OptimalTransport.prologue_globals.
    rewrite Hc. cbn. auto.
Qed.

End Facts.

(** *** The mode test (C4, C5) *)

(** Identity implies equal contents; the converse needs both strings to be
    interned. *)
Lemma py_is_eq (a b : pystr) :
  same_object_same_chars a b -> py_is a b = true -> py_eq a b = true.
Proof.
  unfold py_eq. destruct a, b; cbn; intros Hwf H; try discriminate.
  - apply bool_decide_eq_true in H. now apply bool_decide_eq_true.
  - apply bool_decide_eq_true in H. apply bool_decide_eq_true. auto.
Qed.

Lemma py_is_interned (c d : string) :
  py_is (Interned c) (Interned d) = py_eq (Interned c) (Interned d).
Proof. reflexivity. Qed.

(** C5 at the string [argparse] takes from the command line: its contents
    are those of the literal, yet the identity test of the script says
    no. *)
Theorem identity_test_misses_argv_string :
  py_eq Example.solver_from_argv (literal "floating_epsilon") = true
  /\ py_is Example.solver_from_argv (literal "floating_epsilon") = false
  /\ solver_equals_floating_epsilon (args Example.adaptive_from_argv) = true
  /\ solver_is_floating_epsilon (args Example.adaptive_from_argv) = false.
Proof. repeat split. Qed.

(** C4 at a run started with [--solver floating_epsilon]: the mode is
    floating_epsilon by its contents and one pair is processed, yet no
    audit file is opened and no row is written. *)
Theorem no_audit_file_for_argv_solver :
  let inp := Example.adaptive_from_argv in
  let tr := trace_of (Example.run inp Example.no_globals) in
  chars_of (args_solver (args inp)) = "floating_epsilon"
  /\ length (pair_results (ot_helper inp)) = 1
  /\ outcome_of (Example.run inp Example.no_globals) = Returned tt
  /\ opened_files tr = []
  /\ written_rows tr = [].
Proof. vm_compute. repeat split. Qed.

(** With the interned literal as solver name the same run writes the audit
    file: header, then the row of the pair. *)
Example audit_file_for_default_solver :
  let inp := Example.adaptive_by_default in
  let tr := trace_of (Example.run inp Example.no_globals) in
  opened_files tr = ["out_params.txt"]
  /\ written_rows tr
     = [("out_params.txt", params_header);
        ("out_params.txt",
         "0" +:+ TAB +:+ "1" +:+ TAB +:+ "5" +:+ TAB +:+ "1" +:+ TAB +:+ "2"
           +:+ NL)].
Proof. vm_compute. split; reflexivity. Qed.

(** *** Examples for the cluster input *)

(** C1 fails here: the cluster file and the expression table have no cell
    in common, and the run completes and solves the pair. *)
Lemma foreign_clusters_are_solved :
  let inp := Example.foreign_clusters in
  let r := Example.run inp Example.no_globals in
  args_clusters (args inp) = Some "clusters.txt"
  /\ same_labels (map fst (clusters_file inp))
       (gene_expression_index (ot_helper inp)) = false
  /\ forallb
       (fun id =>
          negb (bool_decide (id ∈ gene_expression_index (ot_helper inp))))
       (map fst (clusters_file inp)) = true
  /\ outcome_of r = Returned tt
  /\ solved_pairs (trace_of r) = [(0%Z, 1%Z)]
  /\ clusters (globals_of r) = [("a", None); ("b", None)].
Proof.
  cbn zeta. split; [reflexivity|]. split; [reflexivity|].
  split; [reflexivity|]. vm_compute. repeat split.
Qed.

Lemma clusters_are_joined_not_validated_witness :
  args_clusters (args Example.foreign_clusters) = Some "clusters.txt"
  /\ outcome_of (Example.run Example.foreign_clusters Example.stale_globals)
     = Returned tt.
Proof.
  split; [reflexivity|].
  apply (clusters_are_joined_not_validated Example.str
           Example.get_column_weights
           ClusterSummarizer.transport_map_by_cluster Example.get_weights
           Example.transport_maps_by_time Example.foreign_clusters
           Example.stale_globals "clusters.txt").
  reflexivity.
Defined.

(** C2 fails here: a clusters file is supplied, one pair is processed, and
    no cluster-level file is written for it. *)
Lemma no_cluster_file_without_details :
  let inp := Example.clusters_without_details in
  let tr := trace_of (Example.run inp Example.no_globals) in
  args_clusters (args inp) = Some "clusters.txt"
  /\ length (pair_results (ot_helper inp)) = 1
  /\ csv_files ClusterMapFile tr = []
  /\ map (fun f => f.1.1) (csv_files ClusterSummaryFile tr)
     = ["out_cluster_summary.txt"].
Proof. vm_compute. repeat split. Qed.

Lemma cluster_files_follow_cluster_details_witness :
  args_clusters (args Example.clusters_with_details) = Some "clusters.txt"
  /\ map (fun f => f.1.1)
       (csv_files ClusterMapFile
          (trace_of
             (Example.run Example.clusters_with_details Example.no_globals)))
     = ["out_cluster_0_1.txt"].
Proof.
  split; [reflexivity|].
  destruct (cluster_files_follow_cluster_details Example.str
              Example.get_column_weights
              ClusterSummarizer.transport_map_by_cluster Example.get_weights
              Example.transport_maps_by_time Example.clusters_with_details
              Example.no_globals "clusters.txt" eq_refl) as (_ & H & _).
  unfold Example.run. rewrite H. reflexivity.
Defined.

End OptimalTransportFacts.

(** * Properties of the cluster summariser *)

Module ClusterSummarizerFacts.
Import OptimalTransport ClusterSummarizer Summarizer.

Local Open Scope R_scope.

(** The summariser on integers, which the examples of the script use, is
    the summariser of [Summarizer] with integer addition. *)
Lemma integer_summariser_is_an_instance (m : DataFrame Z) (grouped : Grouping)
    (cluster_ids : list string) :
  ClusterSummarizer.transport_map_by_cluster m grouped cluster_ids
  = Summarizer.transport_map_by_cluster 0%Z Z.add m grouped cluster_ids
  /\ ClusterSummarizer.total_mass m = Summarizer.total_mass 0%Z Z.add m.
Proof. split; reflexivity. Qed.

Abbreviation rsum := (vsum 0 Rplus).

Lemma rsum_app (l1 l2 : list R) : rsum (l1 ++ l2) = rsum l1 + rsum l2.
Proof.
  unfold vsum. induction l1 as [|x l1 IH]; cbn [app fold_right]; lra.
Qed.

Lemma rsum_map_add {A} (f g : A -> R) (l : list A) :
  rsum (map (fun x => f x + g x) l) = rsum (map f l) + rsum (map g l).
Proof.
  unfold vsum. induction l as [|x l IH]; cbn [map fold_right]; lra.
Qed.

Lemma rsum_map_zero {A} (l : list A) : rsum (map (fun _ => 0) l) = 0.
Proof.
  unfold vsum. induction l as [|x l IH]; cbn [map fold_right]; lra.
Qed.

Lemma rsum_map_ext {A} (f g : A -> R) (l : list A) :
  (forall x, f x = g x) -> rsum (map f l) = rsum (map g l).
Proof.
  intros H. unfold vsum.
  induction l as [|x l IH]; cbn [map fold_right]; [reflexivity|].
  now rewrite H, IH.
Qed.

(** Summing a value over the elements that pass a test counts them. *)
Lemma rsum_indicator {A} (p : A -> bool) (v : R) (l : list A) :
  rsum (map (fun x => if p x then v else 0) l)
  = v * INR (length (List.filter p l)).
Proof.
  unfold vsum.
  induction l as [|x l IH]; cbn [map fold_right List.filter].
  - cbn [length INR]. lra.
  - rewrite IH. destruct (p x); cbn [length]; rewrite ?S_INR; lra.
Qed.

Lemma mass_in_cons (src dst : list string) (e : string * string * R)
    (es : list (string * string * R)) :
  mass_in 0 Rplus src dst (e :: es)
  = (if bool_decide (e.1.1 ∈ src) then
       if bool_decide (e.1.2 ∈ dst) then e.2 else 0
     else 0)
    + mass_in 0 Rplus src dst es.
Proof.
  unfold mass_in, vsum. cbn [List.filter].
  destruct (bool_decide (e.1.1 ∈ src)), (bool_decide (e.1.2 ∈ dst));
    cbn [andb map fold_right]; lra.
Qed.

(** The double sum over the clusters, entry by entry. *)
Lemma summarised_mass (grouped : Grouping) (ids : list string)
    (es : list (string * string * R)) :
  (forall e, e ∈ es ->
     cluster_count grouped ids e.1.1 = 1%nat
     /\ cluster_count grouped ids e.1.2 = 1%nat) ->
  rsum
    (map (fun s =>
            rsum
              (map (fun d =>
                      mass_in 0 Rplus (members grouped s) (members grouped d)
                        es)
                 ids))
       ids)
  = rsum (map snd es).
Proof.
  induction es as [|e es IH]; intros Hone.
  - unfold mass_in. cbn [List.filter map vsum fold_right].
    rewrite (rsum_map_ext _ (fun _ => 0)); [apply rsum_map_zero|].
    intros s. apply rsum_map_zero.
  - rewrite (rsum_map_ext _
      (fun s =>
         rsum (map (fun d =>
                 if bool_decide (e.1.1 ∈ members grouped s) then
                   if bool_decide (e.1.2 ∈ members grouped d) then e.2 else 0
                 else 0) ids)
         + rsum (map (fun d =>
                   mass_in 0 Rplus (members grouped s) (members grouped d) es)
                   ids))).
    2:{ intros s. rewrite <- rsum_map_add. apply rsum_map_ext.
        intros d. apply mass_in_cons. }
    rewrite rsum_map_add, IH by (intros e' He'; apply Hone; now right).
    cbn [map vsum fold_right]. fold (rsum (map snd es)). f_equal.
    destruct (Hone e) as [Hs Hd]; [left|].
    unfold cluster_count in Hs, Hd.
    rewrite (rsum_map_ext _
      (fun s => if bool_decide (e.1.1 ∈ members grouped s) then e.2 else 0)).
    2:{ intros s. destruct (bool_decide (e.1.1 ∈ members grouped s)).
        - rewrite (rsum_indicator
                     (fun d => bool_decide (e.1.2 ∈ members grouped d))).
          rewrite Hd. cbn [INR]. lra.
        - apply rsum_map_zero. }
    rewrite (rsum_indicator
               (fun s => bool_decide (e.1.1 ∈ members grouped s))).
    rewrite Hs. cbn [INR]. lra.
Qed.

Lemma entries_labels {V} (m : DataFrame V) (e : string * string * V) :
  e ∈ entries m -> e.1.1 ∈ index m /\ e.1.2 ∈ columns m.
Proof.
  unfold entries. rewrite list_elem_of_In, in_flat_map.
  intros ([r row] & Hr & He). apply in_map_iff in He.
  destruct He as ([c v] & <- & Hc). cbn.
  apply list_elem_of_In in Hr, Hc.
  apply elem_of_zip_l in Hr. apply elem_of_zip_l in Hc. auto.
Qed.

Lemma entries_mass (m : DataFrame R) :
  well_shaped m -> rsum (map snd (entries m)) = real_total m.
Proof.
  unfold well_shaped, entries, real_total, total_mass.
  destruct m as [idx cols vals]. cbn [index columns values].
  intros [Hlen Hrows]. revert idx Hlen.
  induction Hrows as [|row vals Hrow Hrows IH]; intros idx Hlen.
  - destruct idx; reflexivity.
  - destruct idx as [|r idx]; [discriminate|].
    cbn [zip zip_with flat_map map].
    fold (zip idx vals). rewrite map_app, rsum_app.
    change (rsum (rsum row :: map rsum vals))
      with (rsum row + rsum (map rsum vals)).
    rewrite IH by (cbn in Hlen; lia). f_equal.
    rewrite map_map. cbn [snd].
    change (map (fun x : string * R => x.2) (zip cols row))
      with ((zip cols row).*2).
    rewrite snd_zip by lia. reflexivity.
Qed.

(** C6, as the summariser of the specification behaves on maps of real
    masses that are added exactly: the total mass is kept when every row
    cell and every column cell of the map is in exactly one of the listed
    clusters.  (A cell outside every cluster is left out of the summary,
    and its mass with it.) *)
Theorem summarization_conserves_mass (m : DataFrame R) (grouped : Grouping)
    (cluster_ids : list string) :
  well_shaped m ->
  (forall cell, cell ∈ index m ∨ cell ∈ columns m ->
     cluster_count grouped cluster_ids cell = 1%nat) ->
  real_total (real_summary m grouped cluster_ids) = real_total m.
Proof.
  intros Hshape Hone.
  rewrite <- (entries_mass m Hshape).
  unfold real_total, real_summary, total_mass, transport_map_by_cluster.
  cbn [values]. rewrite map_map.
  apply (summarised_mass grouped cluster_ids (entries m)).
  intros e He. destruct (entries_labels m e He). split; apply Hone; auto.
Qed.

Lemma summarization_conserves_mass_witness :
  well_shaped assigned_map
  /\ (forall cell, cell ∈ index assigned_map ∨ cell ∈ columns assigned_map ->
      cluster_count assigned_grouping ["k1"; "k2"] cell = 1%nat)
  /\ real_total (real_summary assigned_map assigned_grouping ["k1"; "k2"])
     = 5.
Proof.
  assert (Hshape : well_shaped assigned_map).
  { split; [reflexivity|]. repeat constructor. }
  assert (Hone : forall cell,
            cell ∈ index assigned_map ∨ cell ∈ columns assigned_map ->
            cluster_count assigned_grouping ["k1"; "k2"] cell = 1%nat).
  { intros cell Hcell. cbn [assigned_map index columns] in Hcell.
    assert (Hcases : cell = "a" \/ cell = "b" \/ cell = "c").
    { rewrite !elem_of_cons, !elem_of_nil in Hcell. tauto. }
    destruct Hcases as [-> | [-> | ->]]; vm_compute; reflexivity. }
  split; [exact Hshape|]. split; [exact Hone|].
  rewrite (summarization_conserves_mass _ _ _ Hshape Hone).
  unfold real_total, total_mass, vsum, assigned_map.
  cbn [values map fold_right]. lra.
Defined.

(** C6 fails here: the destination cell is in no cluster, the map carries
    mass 1 and its summary carries none. *)
Lemma unassigned_cell_loses_mass :
  well_shaped half_assigned_map
  /\ real_total half_assigned_map = 1
  /\ real_total (real_summary half_assigned_map half_assigned_grouping ["c1"])
     = 0.
Proof.
  split; [split; [reflexivity|repeat constructor]|].
  split.
  - unfold real_total, total_mass, vsum, half_assigned_map.
    cbn [values map fold_right]. lra.
  - assert (Hm : members half_assigned_grouping "c1" = ["a"])
      by reflexivity.
    assert (Hb : bool_decide ("b" ∈ ["a"]) = false).
    { apply bool_decide_eq_false_2. intros H.
      apply elem_of_cons in H. destruct H as [H|H]; [discriminate|].
      apply elem_of_nil in H. exact H. }
    unfold real_total, real_summary, total_mass, transport_map_by_cluster,
      bucket_mass, mass_in, entries, half_assigned_map.
    cbn [values index columns map zip zip_with flat_map app fst snd].
    rewrite Hm. cbn [List.filter fst snd]. rewrite Hb, andb_false_r.
    unfold vsum. cbn [map fold_right]. lra.
Qed.

End ClusterSummarizerFacts.

(** * Properties of the plotting helpers *)

Module PlotFacts.
Import Py Plot PlotExample.

(** *** Sequencing *)

Lemma bind_returned {S A B} (c : M S A) (k : A -> M S B) (s s' : S) (a : A) :
  c s = (Returned a, s') -> (c ≫= k) s = k a s'.
Proof. intros H. cbv [mbind M_bind bind]. now rewrite H. Qed.

Lemma bind_raised {S A B} (c : M S A) (k : A -> M S B) (s s' : S) (e : exn) :
  c s = (Raised e, s') -> (c ≫= k) s = (Raised e, s').
Proof. intros H. cbv [mbind M_bind bind]. now rewrite H. Qed.

(** *** Names (C8) *)

Lemma plt_is_bound {S} (s : S) : use "plt" s = (Returned tt, s).
Proof.
  unfold use. erewrite bind_returned; [reflexivity|].
  unfold load_global.
  replace (module_globals !! "plt") with (Some (VModule "matplotlib.pyplot"))
    by (vm_compute; reflexivity).
  reflexivity.
Qed.

Lemma unbound_name_raises {S} (n : string) (s : S) :
  module_globals !! n = None ->
  bool_decide (n ∈ builtins) = false ->
  load_global n s = (Raised (NameError n), s).
Proof. intros Hg Hb. unfold load_global. now rewrite Hg, Hb. Qed.

(** C8: [plot_triangle] raises [NameError] for every input.  Neither
    [fate_ds] nor [math] is a global of the module or a builtin; the first
    statement after the figure is created reads [fate_ds], so nothing is
    plotted: the figure is the only effect. *)
Theorem plot_triangle_raises_NameError (fates_ds : AnnData) (day : R)
    (name1 name2 : string) (filename : option string)
    (tr : list plt_event) :
  module_globals !! "fate_ds" = None
  /\ ("fate_ds" ∉ builtins)
  /\ module_globals !! "math" = None
  /\ ("math" ∉ builtins)
  /\ load_global "math" tr = (Raised (NameError "math"), tr)
  /\ plot_triangle fates_ds day name1 name2 filename tr
     = (Raised (NameError "fate_ds"), tr ++ [Figure 10 10]).
Proof.
  assert (Hf : module_globals !! "fate_ds" = None)
    by (vm_compute; reflexivity).
  assert (Hm : module_globals !! "math" = None) by (vm_compute; reflexivity).
  assert (Hfb : bool_decide ("fate_ds" ∈ builtins) = false)
    by (vm_compute; reflexivity).
  assert (Hmb : bool_decide ("math" ∈ builtins) = false)
    by (vm_compute; reflexivity).
  split; [exact Hf|]. split; [exact (bool_decide_eq_false_1 _ Hfb)|].
  split; [exact Hm|]. split; [exact (bool_decide_eq_false_1 _ Hmb)|].
  split; [now apply unbound_name_raises|].
  unfold plot_triangle.
  erewrite bind_returned by apply plt_is_bound.
  erewrite bind_returned by reflexivity.
  apply bind_raised. now apply unbound_name_raises.
Qed.

(** *** Validation ratio (C3) *)

(** What the alignment test computes for two series of one length: the
    difference of the sums of their midpoints. *)
Lemma Qsum_differences (a b : list Q) :
  length a = length b ->
  elementwise Qminus a b = Returned (zip_with Qminus a b)
  /\ (Qsum (zip_with Qminus a b) == Qsum a - Qsum b)%Q.
Proof.
  intros Hlen. split.
  - unfold elementwise, broadcast2.
    now rewrite bool_decide_eq_true_2 by exact Hlen.
  - revert b Hlen. induction a as [|x a IH]; intros [|y b] Hlen;
      try discriminate; cbn [zip_with Qsum fold_right].
    + ring.
    + injection Hlen as Hlen. specialize (IH b Hlen).
      unfold Qsum in IH. rewrite IH. ring.
Qed.

(** C3 at [crossed_midpoints]: the midpoints of the series I and Rg do not
    match one to one, their differences sum to zero, and the function
    returns normally after plotting the interpolated rows against the null
    rows of other midpoints and saving the figure. *)
Theorem crossed_midpoints_are_plotted :
  mids "I" crossed_midpoints = [1; 4]%Q
  /\ mids "Rg" crossed_midpoints = [2; 3]%Q
  /\ midpoints_match "I" "Rg" crossed_midpoints = false
  /\ (plot_ot_validation_ratio crossed_midpoints "ratio.png" []).1
     = Returned tt
  /\ last (plot_ot_validation_ratio crossed_midpoints "ratio.png" []).2
     = Some (Savefig "ratio.png")
  /\ (exists ys,
        PlotLine [1; 4]%Q ys "with growth"
        ∈ (plot_ot_validation_ratio crossed_midpoints "ratio.png" []).2).
Proof.
  split; [vm_compute; reflexivity|]. split; [vm_compute; reflexivity|].
  split; [vm_compute; reflexivity|]. split; [vm_compute; reflexivity|].
  split; [vm_compute; reflexivity|].
  eexists. vm_compute. do 4 right. left.
Qed.

(** *** Log odds (C9) *)

Lemma broadcast_to_map {A B} (f : A -> B) (n : nat) (v : list A) :
  broadcast_to n (map f v) = (broadcast_to n v ≫= fun v' => Returned (map f v')).
Proof.
  unfold broadcast_to. rewrite length_map.
  destruct (bool_decide (length v = n)); [reflexivity|].
  destruct v as [|x [|y v]]; cbn; try reflexivity.
  induction n as [|n IH]; cbn; [reflexivity|].
  cbn in IH. injection IH as IH. now rewrite IH.
Qed.

(** Under the mask [b != 0] no quotient with a zero divisor is computed:
    the masked division returns, entry for entry, the quotient or the entry
    of [out]. *)
Lemma divide_where_masked (a b out : list R) :
  exists q,
    divide_where a b out (map nonzero b) = Returned q
    /\ forall i,
         q !! i
         = (x ← a !! i; y ← b !! i; o ← out !! i;
            Some (if nonzero y then (x / y)%R else o)).
Proof.
  revert b out. induction a as [|x a IH]; intros b out.
  - exists []. split; [reflexivity|]. intros i. reflexivity.
  - destruct b as [|y b].
    { exists []. split; [reflexivity|]. intros i.
      rewrite lookup_nil. destruct ((x :: a) !! i); reflexivity. }
    destruct out as [|o out].
    { exists []. split; [reflexivity|]. intros i.
      rewrite !lookup_nil.
      destruct ((x :: a) !! i); [|reflexivity].
      destruct ((y :: b) !! i); reflexivity. }
    destruct (IH b out) as (q & Hq & Hi).
    cbn [map divide_where]. rewrite Hq.
    unfold nonzero at 1, checked_divide.
    destruct (bool_decide (y = 0%R)) eqn:Hy; cbn.
    + exists (o :: q). split; [reflexivity|].
      intros [|i]; cbn; [unfold nonzero; now rewrite Hy|apply Hi].
    + exists ((x / y)%R :: q). split; [reflexivity|].
      intros [|i]; cbn; [unfold nonzero; now rewrite Hy|apply Hi].
Qed.

Lemma np_log_offset : np_log (1e-9 + 0) = Some (ln 1e-9).
Proof.
  unfold np_log. rewrite Rplus_0_r.
  destruct (Rlt_dec 0 1e-9) as [_|H]; [reflexivity|].
  exfalso. apply H. lra.
Qed.

(** C9: the log-odds computation never divides by zero.  Whatever the two
    vectors, it does not end in the error of a zero divisor; and for two
    vectors of one length it returns a vector of that length whose entry is
    [log(1e-9)] wherever the denominator is zero. *)
Theorem log_odds_never_divides_by_zero (fate1 fate2 : list R) :
  (forall msg, log_odds fate1 fate2 <> Raised (FloatingPointError msg))
  /\ (length fate1 = length fate2 ->
      exists p,
        log_odds fate1 fate2 = Returned p
        /\ length p = length fate1
        /\ forall i, fate2 !! i = Some 0%R ->
                     p !! i = Some (Some (ln 1e-9))).
Proof.
  unfold log_odds, np_divide. rewrite !length_map.
  rewrite broadcast_to_map.
  assert (Hself : broadcast_to (length fate1) fate1 = Returned fate1).
  { unfold broadcast_to. now rewrite bool_decide_eq_true_2. }
  rewrite Hself. cbn [mbind outcome_bind].
  split.
  - intros msg.
    destruct (broadcast_to (length fate1) fate2) as [b'|e] eqn:Hb.
    + cbn [mbind outcome_bind].
      destruct (divide_where_masked fate1 b' (map (fun _ => 0%R) fate1))
        as (q & -> & _).
      discriminate.
    + cbn [mbind outcome_bind]. unfold broadcast_to, broadcast_error in Hb.
      destruct (bool_decide (length fate2 = length fate1));
        [discriminate|].
      destruct fate2 as [|? [|? ?]]; try discriminate;
        injection Hb as <-; discriminate.
  - intros Hlen.
    assert (Hb : broadcast_to (length fate1) fate2 = Returned fate2).
    { unfold broadcast_to. now rewrite bool_decide_eq_true_2. }
    rewrite Hb. cbn [mbind outcome_bind].
    destruct (divide_where_masked fate1 fate2 (map (fun _ => 0%R) fate1))
      as (q & -> & Hq).
    eexists. split; [reflexivity|].
    assert (Hlq : length q = length fate1).
    { apply Nat.le_antisymm.
      - apply Nat.nlt_ge. intros Hlt.
        destruct (lookup_lt_is_Some_2 q (length fate1) Hlt) as [v Hv].
        rewrite Hq in Hv. rewrite (lookup_ge_None_2 fate1) in Hv by lia.
        discriminate.
      - apply Nat.nlt_ge. intros Hlt.
        pose proof (Hq (length q)) as Hi.
        rewrite (lookup_ge_None_2 q) in Hi by lia.
        destruct (lookup_lt_is_Some_2 fate1 (length q)) as [x Hx]; [lia|].
        destruct (lookup_lt_is_Some_2 fate2 (length q)) as [y Hy]; [lia|].
        rewrite Hx, Hy in Hi. cbn in Hi.
        rewrite list_lookup_fmap, Hx in Hi. discriminate. }
    split; [now rewrite length_map|].
    intros i Hi. rewrite list_lookup_fmap, Hq, Hi.
    destruct (lookup_lt_is_Some_2 fate1 i) as [x Hx].
    { apply lookup_lt_Some in Hi. lia. }
    rewrite Hx. cbn. rewrite list_lookup_fmap, Hx. cbn.
    unfold nonzero. rewrite bool_decide_eq_true_2 by reflexivity. cbn.
    f_equal. exact np_log_offset.
Qed.

Lemma log_odds_never_divides_by_zero_witness :
  length [1%R; 2%R] = length [0%R; 4%R]
  /\ exists p,
       log_odds [1%R; 2%R] [0%R; 4%R] = Returned p
       /\ length p = 2
       /\ p !! 0 = Some (Some (ln 1e-9)).
Proof.
  split; [reflexivity|].
  destruct (log_odds_never_divides_by_zero [1%R; 2%R] [0%R; 4%R])
    as [_ H].
  destruct (H eq_refl) as (p & Hp & Hl & Hz).
  exists p. split; [exact Hp|]. split; [exact Hl|].
  apply Hz. reflexivity.
Defined.

Local Open Scope R_scope.

(** *** Kernel smoothing (C10) *)

Lemma index_sum_S (n : nat) (f : nat -> R) :
  index_sum (S n) f = f 0%nat + index_sum n (fun i => f (S i)).
Proof.
  unfold index_sum. cbn [seq map fold_right]. f_equal.
  rewrite <- seq_shift, map_map. reflexivity.
Qed.

(** A sum over a list is the sum over its indices. *)
Lemma Rsum_index_sum {A} (g : A -> R) (d : A) (l : list A) :
  Rsum (map g l) = index_sum (length l) (fun i => g (nth i l d)).
Proof.
  induction l as [|a l IH]; [reflexivity|].
  cbn [map Rsum fold_right length]. rewrite index_sum_S. cbn [nth].
  f_equal. exact IH.
Qed.

Lemma Rsum_zip_index_sum {A} (g : A -> R) (d : A) (l : list A) :
  forall ys : list R,
    length l = length ys ->
    Rsum (zip_with Rmult ys (map g l))
    = index_sum (length l) (fun i => nth i ys 0 * g (nth i l d)).
Proof.
  induction l as [|a l IH]; intros [|y ys] Hlen; try discriminate;
    [reflexivity|].
  cbn [map zip_with Rsum fold_right length]. rewrite index_sum_S. cbn [nth].
  f_equal. apply IH. now injection Hlen.
Qed.

Lemma index_sum_ext (n : nat) (f g : nat -> R) :
  (forall i, f i = g i) -> index_sum n f = index_sum n g.
Proof.
  intros H. unfold index_sum. f_equal. apply map_ext. auto.
Qed.

Lemma kernel_weights_as_map (x : R) (xi : list R) (sigma : R) :
  kernel_weights x xi sigma
  = map (fun a => exp (- (x - a) ^ 2 / (2 * sigma ^ 2))) xi.
Proof.
  unfold kernel_weights. rewrite !map_map. apply map_ext. intros a.
  f_equal. f_equal. ring.
Qed.

Lemma kernel_weights_positive (x : R) (xi : list R) (sigma : R) :
  Forall (fun w => 0 < w) (kernel_weights x xi sigma).
Proof.
  rewrite kernel_weights_as_map. apply Forall_forall. intros w Hw.
  apply list_elem_of_In, in_map_iff in Hw. destruct Hw as (a & <- & _).
  apply exp_pos.
Qed.

Lemma Rsum_positive (w : list R) :
  w <> [] -> Forall (fun v => 0 < v) w -> 0 < Rsum w.
Proof.
  intros Hne Hpos. destruct Hpos as [|v w Hv Hw]; [congruence|].
  clear Hne. cbn [Rsum fold_right].
  assert (0 <= Rsum w); [|unfold Rsum in *; lra].
  induction Hw as [|u w Hu Hw IH]; cbn; [lra|]. unfold Rsum in IH. lra.
Qed.

(** A weighted sum lies between the bounds of the values times the total
    weight. *)
Lemma weighted_sum_bounds (lo hi : R) (w : list R) :
  Forall (fun v => 0 < v) w ->
  forall ys : list R,
    length ys = length w ->
    Forall (fun y => lo <= y <= hi) ys ->
    lo * Rsum w <= Rsum (zip_with Rmult ys w) <= hi * Rsum w.
Proof.
  induction 1 as [|v w Hv Hw IH]; intros [|y ys] Hlen Hys;
    try discriminate; cbn [zip_with Rsum fold_right].
  - lra.
  - apply Forall_cons in Hys. destruct Hys as [Hy Hys].
    specialize (IH ys ltac:(now injection Hlen) Hys).
    unfold Rsum in IH. nra.
Qed.

Lemma quotient_between (lo hi a t : R) :
  0 < t -> lo * t <= a <= hi * t -> lo <= a / t <= hi.
Proof.
  intros Ht [Hlo Hhi].
  assert (Ha : a = a / t * t) by (field; lra).
  split; apply (Rmult_le_reg_r t); lra.
Qed.

Lemma fold_left_Rmin_le (l : list R) :
  forall a, fold_left Rmin l a <= a
            /\ Forall (fun y => fold_left Rmin l a <= y) l.
Proof.
  induction l as [|b l IH]; intros a; cbn [fold_left].
  - split; [lra|constructor].
  - destruct (IH (Rmin a b)) as [H1 H2].
    pose proof (Rmin_l a b). pose proof (Rmin_r a b).
    split; [lra|]. constructor; [lra|exact H2].
Qed.

Lemma fold_left_Rmax_ge (l : list R) :
  forall a, a <= fold_left Rmax l a
            /\ Forall (fun y => y <= fold_left Rmax l a) l.
Proof.
  induction l as [|b l IH]; intros a; cbn [fold_left].
  - split; [lra|constructor].
  - destruct (IH (Rmax a b)) as [H1 H2].
    pose proof (Rmax_l a b). pose proof (Rmax_r a b).
    split; [lra|]. constructor; [lra|exact H2].
Qed.

Lemma vmin_vmax_bounds (ys : list R) :
  Forall (fun y => vmin ys <= y <= vmax ys) ys.
Proof.
  destruct ys as [|a l]; [constructor|]. unfold vmin, vmax.
  destruct (fold_left_Rmin_le l a) as [Ha Hl].
  destruct (fold_left_Rmax_ge l a) as [Ha' Hl'].
  constructor; [lra|].
  rewrite Forall_forall in Hl, Hl' |- *. intros y Hy.
  split; [apply Hl|apply Hl']; exact Hy.
Qed.

Lemma interpolate_returns (x : R) (xi yi : list R) (sigma : R) :
  length xi = length yi ->
  interpolate x xi yi sigma
  = Returned (Rsum (zip_with Rmult yi (kernel_weights x xi sigma))
              / Rsum (kernel_weights x xi sigma)).
Proof.
  intros Hlen. unfold interpolate, elementwise, broadcast2.
  fold (kernel_weights x xi sigma).
  rewrite bool_decide_eq_true_2
    by (unfold kernel_weights; rewrite !length_map; auto).
  reflexivity.
Qed.

(** The value [interpolate] returns is the average of the specification. *)
Lemma interpolate_as_average (x : R) (xi yi : list R) (sigma : R) :
  length xi = length yi ->
  interpolate x xi yi sigma
  = Returned (gaussian_weighted_average x xi yi sigma).
Proof.
  intros Hlen. rewrite (interpolate_returns x xi yi sigma Hlen). f_equal.
  unfold gaussian_weighted_average, gaussian_weight.
  rewrite kernel_weights_as_map.
  rewrite (Rsum_zip_index_sum _ 0 xi yi Hlen).
  rewrite (Rsum_index_sum _ 0 xi). reflexivity.
Qed.

Lemma fill_returns {A} (f : R -> outcome A) (g : R -> A) (xs : list R) :
  (forall x, f x = Returned (g x)) -> fill f xs = Returned (map g xs).
Proof.
  intros H. induction xs as [|x xs IH]; [reflexivity|].
  cbn [fill map]. rewrite H, IH. reflexivity.
Qed.

(** [kernel_smooth] evaluates that average at each point of the grid. *)
Lemma kernel_smooth_as_average (xi yi : list R) (start stop : R)
    (steps : nat) (sigma : R) :
  length xi = length yi ->
  kernel_smooth xi yi start stop steps sigma
  = Returned
      (linspace start stop steps,
       map (fun x => gaussian_weighted_average x xi yi sigma)
         (linspace start stop steps)).
Proof.
  intros Hlen. unfold kernel_smooth.
  rewrite (fill_returns _
             (fun x => gaussian_weighted_average x xi yi sigma)).
  - reflexivity.
  - intros x. now apply interpolate_as_average.
Qed.

(** C10: for a non-empty sample of matching lengths and a positive
    bandwidth, [interpolate] returns the Gaussian-kernel weighted average of
    the specification; it returns [c] when every sample value is [c]; and
    its result lies between the least and the greatest sample value. *)
Theorem interpolate_is_weighted_average (x : R) (xi yi : list R)
    (sigma : R) :
  xi <> [] ->
  length xi = length yi ->
  0 < sigma ->
  interpolate x xi yi sigma
  = Returned (gaussian_weighted_average x xi yi sigma)
  /\ (forall c, Forall (fun y => y = c) yi ->
                interpolate x xi yi sigma = Returned c)
  /\ (exists r, interpolate x xi yi sigma = Returned r
                /\ vmin yi <= r <= vmax yi).
Proof.
  intros Hne Hlen Hsigma.
  split; [now apply interpolate_as_average|].
  rewrite (interpolate_returns x xi yi sigma Hlen).
  pose proof (kernel_weights_positive x xi sigma) as Hpos.
  assert (Hwlen : length yi = length (kernel_weights x xi sigma))
    by (unfold kernel_weights; rewrite !length_map; auto).
  assert (Hwne : kernel_weights x xi sigma <> []).
  { intros Hnil. apply Hne. apply length_zero_iff_nil.
    rewrite Hlen, Hwlen, Hnil. reflexivity. }
  pose proof (Rsum_positive _ Hwne Hpos) as Htotal.
  assert (Hbetween : forall lo hi,
            Forall (fun y => lo <= y <= hi) yi ->
            lo <= Rsum (zip_with Rmult yi (kernel_weights x xi sigma))
                  / Rsum (kernel_weights x xi sigma) <= hi).
  { intros lo hi Hys.
    destruct (weighted_sum_bounds lo hi _ Hpos yi Hwlen Hys) as [Hlo Hhi].
    apply quotient_between; auto. }
  split.
  - intros c Hc. f_equal.
    destruct (Hbetween c c); [|lra].
    eapply Forall_impl; [exact Hc|]. intros y ->. cbn. lra.
  - eexists. split; [reflexivity|].
    apply Hbetween, vmin_vmax_bounds.
Qed.

Lemma interpolate_is_weighted_average_witness :
  [0; 1] <> []
  /\ length [0; 1] = length [3; 5]
  /\ 0 < 1
  /\ exists r, interpolate (1 / 2) [0; 1] [3; 5] 1 = Returned r
               /\ vmin [3; 5] <= r <= vmax [3; 5].
Proof.
  assert (Hne : [0; 1] <> []) by discriminate.
  assert (Hs : 0 < 1) by lra.
  split; [exact Hne|]. split; [reflexivity|]. split; [exact Hs|].
  apply (interpolate_is_weighted_average (1 / 2) [0; 1] [3; 5] 1 Hne
           eq_refl Hs).
Defined.

End PlotFacts.

(** * Kernel smoothing in binary64 *)

Module Binary64Facts.
Import Py PrimFloat.

#[local] Set Warnings "-inexact-float".

(** C10 fails here, on the numbers the code runs on.  Three samples of
    value 0.1 at the query point have weight 1 each; their sum is rounded
    to 0.30000000000000004 and the result, 0.10000000000000002, is above
    every sample value.  And at the query point 1000 the weights of the
    samples at 0 and 1 are both 0, so the result is 0/0, not a number. *)
Lemma interpolate_leaves_the_sample_range :
  Binary64.interpolate 0 [0; 0; 0]%float [0.1; 0.1; 0.1]%float 1
  = Some (Returned 0.10000000000000002%float)
  /\ (0.1 <? 0.10000000000000002)%float = true
  /\ Binary64.within [0.1; 0.1; 0.1]%float 0.10000000000000002%float = false
  /\ Binary64.interpolate 1000 [0; 1]%float [3; 5]%float 1
     = Some (Returned nan)
  /\ Binary64.within [3; 5]%float nan = false.
Proof. repeat split; vm_compute; reflexivity. Qed.

(** Why C6 speaks of masses that are added exactly: in binary64 the
    summary adds the same three masses in another order than the map does,
    and the two totals differ in the last place. *)
Lemma regrouping_changes_a_rounded_total :
  Binary64.float_total Binary64.three_masses = 0.6%float
  /\ Binary64.float_total
       (Binary64.float_summary Binary64.three_masses
          Binary64.three_masses_grouping ["k1"; "k2"; "k3"])
     = 0.6000000000000001%float
  /\ (0.6 <? 0.6000000000000001)%float = true.
Proof. repeat split; vm_compute; reflexivity. Qed.

End Binary64Facts.

(** * More on the driver script *)

Module OptimalTransportExtras.
Import Py OptimalTransport OptimalTransportViews OptimalTransportFacts.

Section Extras.
Context {num V weights weights_by_time : Type}.
Variable str : num -> string.
Variable get_column_weights :
  list string -> Grouping -> list string -> weights.
Variable transport_map_by_cluster :
  DataFrame V -> Grouping -> list string -> DataFrame V.
Variable get_weights :
  gset string -> list (list string) -> Grouping -> list string ->
  weights_by_time.
Variable transport_maps_by_time :
  list (DataFrame V) -> weights_by_time -> DataFrame V.

Abbreviation run :=
  (run str get_column_weights transport_map_by_cluster get_weights
     transport_maps_by_time).
Abbreviation run_spec :=
  (run_spec str get_column_weights transport_map_by_cluster get_weights
     transport_maps_by_time).
Abbreviation callback_events := (callback_events str transport_map_by_cluster).
Abbreviation loop_events := (loop_events str transport_map_by_cluster).
Abbreviation run_events :=
  (run_events str get_column_weights transport_map_by_cluster get_weights
     transport_maps_by_time).
Abbreviation final_globals :=
  (final_globals (num:=num) get_column_weights transport_map_by_cluster).
Abbreviation prologue_globals :=
  (prologue_globals (num:=num) (V:=V) get_column_weights).
Abbreviation loop_globals :=
  (loop_globals (weights:=weights) (num:=num) transport_map_by_cluster).
Abbreviation callback_globals :=
  (callback_globals (weights:=weights) (num:=num) transport_map_by_cluster).

(** A projection of the trace that goes through [++] goes through the
    loop pair by pair. *)
Lemma loop_events_view {B} (view : list (@event num V) -> list B)
    (a : Args) (grp : Grouping) (ids : list string) (cs : list CbArgs) :
  (forall tr1 tr2, view (tr1 ++ tr2) = view tr1 ++ view tr2) ->
  view (loop_events a grp ids cs)
  = flat_map
      (fun c => view (ESolve (t0 c) (t1 c) :: callback_events a grp ids c))
      cs.
Proof.
  intros Happ. unfold OptimalTransport.loop_events.
  induction cs as [|c cs IH]; cbn [flat_map].
  - specialize (Happ [] []). cbn in Happ.
    destruct (view []); [reflexivity|].
    apply (f_equal length) in Happ. rewrite length_app in Happ.
    cbn in Happ. lia.
  - rewrite Happ, IH. reflexivity.
Qed.

(** *** Transport maps *)

(** X1: a run writes exactly one transport-map file per pair of time
    points, in the order of the pairs: named prefix_t0_t1.txt (with .gz
    under --compress), holding the solver's matrix with the cells of the
    earlier time point as rows and those of the later one as columns, tab
    separated, index label id, no quoting. *)
Theorem one_transport_map_file_per_pair (inp : Inputs) (g0 : globals) :
  csv_files TransportMapFile (trace_of (run inp g0))
  = map (fun c =>
           (args_prefix (args inp) +:+ "_" +:+ str (t0 c) +:+ "_"
              +:+ str (t1 c) +:+ ".txt"
              +:+ (if args_compress (args inp) then ".gz" else ""),
            mkDataFrame (p0_index c) (p1_index c) (transport (result c)),
            mkCsvOptions "id" TAB
              (if args_compress (args inp) then Some "gzip" else None)
              false QUOTE_NONE))
      (pair_results (ot_helper inp)).
Proof.
  rewrite run_spec. unfold trace_of. cbn [fst snd].
  unfold OptimalTransport.run_events.
  rewrite !csv_files_app, csv_files_loop.
  rewrite (flat_map_ext _
             (fun c => [(transport_map_path str (args inp) c,
                         transport_frame c,
                         transport_csv_options (args inp))])).
  2:{ intros c. unfold OptimalTransport.callback_events.
      destruct (solver_is_floating_epsilon (args inp)),
        (args_clusters (args inp)), (args_verbose (args inp)),
        (args_cluster_details (args inp)); reflexivity. }
  rewrite flat_map_singleton.
  unfold OptimalTransport.prologue_events, OptimalTransport.epilogue_events.
  destruct (solver_is_floating_epsilon (args inp)),
    (args_clusters (args inp)), (args_verbose (args inp));
    cbn; rewrite ?app_nil_r; reflexivity.
Qed.

(** *** Compression *)

Lemma append_assoc (a b c : string) : (a +:+ b) +:+ c = a +:+ (b +:+ c).
Proof.
  induction a as [|x a IH]; [reflexivity|].
  change (String x ((a +:+ b) +:+ c) = String x (a +:+ (b +:+ c))).
  now rewrite IH.
Qed.

Lemma csv_calls_app (tr1 tr2 : list (@event num V)) :
  csv_calls (tr1 ++ tr2) = csv_calls tr1 ++ csv_calls tr2.
Proof. apply omap_app. Qed.

Lemma cluster_map_path_stem (a : Args) (c : @CbArgs num V) :
  exists stem,
    cluster_map_path str a c
    = stem +:+ ".txt" +:+ (if args_compress a then ".gz" else "").
Proof.
  exists (args_prefix a +:+ "_cluster_" +:+ str (t0 c) +:+ "_"
            +:+ str (t1 c)).
  unfold cluster_map_path, gz_suffix. now rewrite !append_assoc.
Qed.

Lemma transport_map_path_stem (a : Args) (c : @CbArgs num V) :
  exists stem,
    transport_map_path str a c
    = stem +:+ ".txt" +:+ (if args_compress a then ".gz" else "").
Proof.
  exists (args_prefix a +:+ "_" +:+ str (t0 c) +:+ "_" +:+ str (t1 c)).
  unfold transport_map_path, gz_suffix. now rewrite !append_assoc.
Qed.

Lemma cluster_summary_path_stem (a : Args) :
  exists stem,
    cluster_summary_path a
    = stem +:+ ".txt" +:+ (if args_compress a then ".gz" else "").
Proof.
  exists (args_prefix a +:+ "_cluster_summary").
  unfold cluster_summary_path, gz_suffix. now rewrite !append_assoc.
Qed.

(** X2: every file a run writes with [to_csv], whichever it is, ends in
    .txt.gz and is gzip-compressed under --compress, ends in .txt and is
    not compressed without it, is tab separated and has the index label
    id. *)
Theorem gzip_suffix_and_compression_agree (inp : Inputs) (g0 : globals) :
  Forall (consistent_call (args inp)) (csv_calls (trace_of (run inp g0))).
Proof.
  rewrite run_spec. unfold trace_of. cbn [fst snd].
  unfold OptimalTransport.run_events.
  rewrite !csv_calls_app, (loop_events_view csv_calls) by apply csv_calls_app.
  assert (Hcluster : forall c : @CbArgs num V,
            consistent_call (args inp)
              (ClusterMapFile, cluster_map_path str (args inp) c,
               cluster_csv_options (args inp))).
  { intros c. repeat split. apply cluster_map_path_stem. }
  assert (Htransport : forall c : @CbArgs num V,
            consistent_call (args inp)
              (TransportMapFile, transport_map_path str (args inp) c,
               transport_csv_options (args inp))).
  { intros c. repeat split. apply transport_map_path_stem. }
  assert (Hsummary :
            consistent_call (args inp)
              (ClusterSummaryFile, cluster_summary_path (args inp),
               cluster_csv_options (args inp))).
  { repeat split. apply cluster_summary_path_stem. }
  rewrite !Forall_app. split; [|split].
  - unfold OptimalTransport.prologue_events.
    destruct (solver_is_floating_epsilon (args inp)); constructor.
  - apply Forall_flat_map, Forall_forall. intros c _.
    unfold OptimalTransport.callback_events.
    destruct (solver_is_floating_epsilon (args inp)),
      (args_clusters (args inp)), (args_verbose (args inp)),
      (args_cluster_details (args inp)); cbn;
      repeat first [apply List.Forall_nil
                   | apply List.Forall_cons; [solve [auto]|]].
  - unfold OptimalTransport.epilogue_events.
    destruct (solver_is_floating_epsilon (args inp)),
      (args_clusters (args inp)), (args_verbose (args inp)); cbn;
      repeat first [apply List.Forall_nil
                   | apply List.Forall_cons; [solve [auto]|]].
Qed.

(** *** The audit file *)

Lemma file_events_app (tr1 tr2 : list (@event num V)) :
  file_events (tr1 ++ tr2) = file_events tr1 ++ file_events tr2.
Proof. apply List.filter_app. Qed.

(** X3: the run returns, and the parameter file is handled as a whole or
    not at all: when the solver test holds it is opened once, gets the
    header, then one row per pair in order, and is closed at the end; when
    the test fails there is no open, no write and no close. *)
Theorem audit_file_is_opened_written_closed (inp : Inputs) (g0 : globals) :
  outcome_of (run inp g0) = Returned tt
  /\ file_events (trace_of (run inp g0))
     = (if solver_is_floating_epsilon (args inp)
        then EOpen (params_path (args inp))
             :: EWrite (params_path (args inp)) params_header
             :: map (fun c =>
                       EWrite (params_path (args inp)) (params_row str c))
                  (pair_results (ot_helper inp))
             ++ [EClose (params_path (args inp))]
        else []).
Proof.
  rewrite run_spec. unfold outcome_of, trace_of. cbn [fst snd].
  split; [reflexivity|].
  unfold OptimalTransport.run_events.
  rewrite !file_events_app, (loop_events_view file_events)
    by apply file_events_app.
  rewrite (flat_map_ext _
             (fun c => optional (solver_is_floating_epsilon (args inp))
                         [EWrite (params_path (args inp))
                            (params_row str c)])).
  2:{ intros c. unfold OptimalTransport.callback_events.
      destruct (solver_is_floating_epsilon (args inp)),
        (args_clusters (args inp)), (args_verbose (args inp)),
        (args_cluster_details (args inp)); reflexivity. }
  unfold OptimalTransport.prologue_events, OptimalTransport.epilogue_events.
  destruct (solver_is_floating_epsilon (args inp)); cbn [optional].
  - rewrite flat_map_singleton.
    destruct (args_clusters (args inp)), (args_verbose (args inp));
      reflexivity.
  - rewrite flat_map_nil.
    destruct (args_clusters (args inp)), (args_verbose (args inp));
      reflexivity.
Qed.

(** *** Accumulation *)

Lemma loop_globals_collects (a : Args) (cs : list CbArgs) (path : string) :
  args_clusters a = Some path ->
  forall g : globals,
    cluster_transport_maps (loop_globals a cs g)
    = cluster_transport_maps g
      ++ map (fun c =>
                transport_map_by_cluster (transport_frame c)
                  (grouped_by_cluster g) (cluster_ids g)) cs
    /\ column_cell_ids_by_time (loop_globals a cs g)
       = column_cell_ids_by_time g ++ map p1_index cs
    /\ all_cell_ids (loop_globals a cs g) = all_cell_ids g ∪ cells_of cs
    /\ total_cluster_size (loop_globals a cs g) = total_cluster_size g
    /\ clusters (loop_globals a cs g) = clusters g.
Proof.
  intros Hc. induction cs as [|c cs IH]; intros g.
  - cbn. rewrite !app_nil_r. unfold cells_of. cbn.
    rewrite (right_id_L ∅ (∪)). auto.
  - unfold OptimalTransport.loop_globals in *. cbn [fold_left].
    destruct (IH (callback_globals a c g)) as (H1 & H2 & H3 & H4 & H5).
    rewrite H1, H2, H3, H4, H5.
    unfold OptimalTransport.callback_globals. rewrite Hc.
    cbn [is_not_None cluster_transport_maps column_cell_ids_by_time
         all_cell_ids total_cluster_size clusters grouped_by_cluster
         cluster_ids set_cluster_transport_maps set_column_cell_ids_by_time
         set_all_cell_ids map].
    rewrite <- !app_assoc. cbn [app].
    repeat split.
    unfold cells_of. cbn [flat_map].
    rewrite !list_to_set_app_L, <- !(assoc_L (∪)). reflexivity.
Qed.

(** X4: with a clusters file, at the end of the run the module variables
    hold the grouping of the joined cluster table and its keys, the cluster
    sizes of that table, one summarised map and one list of column cells
    per pair, in the order of the pairs, and the set of all row and column
    cells of the maps, whatever the variables held before. *)
Theorem accumulators_collect_every_pair (inp : Inputs) (g0 : globals)
    (path : string) :
  args_clusters (args inp) = Some path ->
  let g := globals_of (run inp g0) in
  let tbl :=
    align_right (clusters_file inp) (gene_expression_index (ot_helper inp)) in
  let pairs := pair_results (ot_helper inp) in
  grouped_by_cluster g = groupby tbl
  /\ cluster_ids g = map fst (groupby tbl)
  /\ total_cluster_size g
     = Some (get_column_weights (map fst tbl) (groupby tbl)
               (map fst (groupby tbl)))
  /\ cluster_transport_maps g
     = map (fun c =>
              transport_map_by_cluster
                (mkDataFrame (p0_index c) (p1_index c) (transport (result c)))
                (groupby tbl) (map fst (groupby tbl))) pairs
  /\ column_cell_ids_by_time g = map p1_index pairs
  /\ all_cell_ids g = cells_of pairs.
Proof.
  intros Hc g tbl pairs. subst g tbl pairs. rewrite run_spec.
  unfold globals_of. cbn [fst snd]. unfold OptimalTransport.final_globals.
  destruct (loop_globals_frame transport_map_by_cluster (args inp)
              (pair_results (ot_helper inp)) (prologue_globals inp g0))
    as (_ & Hg & Hi).
  destruct (loop_globals_collects (args inp) (pair_results (ot_helper inp))
              path Hc (prologue_globals inp g0))
    as (H1 & H2 & H3 & H4 & _).
  rewrite Hg, Hi, H1, H2, H3, H4.
  unfold OptimalTransport.prologue_globals, aligned_clusters. rewrite Hc.
  cbn [grouped_by_cluster cluster_ids total_cluster_size
       cluster_transport_maps column_cell_ids_by_time all_cell_ids app].
  rewrite (left_id_L ∅ (∪)). auto 10.
Qed.

(** X5: without a clusters file a run writes no cluster file and no
    cluster summary, and it ends with the cluster accumulators empty and
    the cluster sizes None, whatever the variables held before. *)
Theorem nothing_about_clusters_without_a_clusters_file (inp : Inputs)
    (g0 : globals) :
  args_clusters (args inp) = None ->
  let tr := trace_of (run inp g0) in
  let g := globals_of (run inp g0) in
  csv_files ClusterMapFile tr = []
  /\ csv_files ClusterSummaryFile tr = []
  /\ cluster_transport_maps g = []
  /\ column_cell_ids_by_time g = []
  /\ all_cell_ids g = ∅
  /\ total_cluster_size g = None.
Proof.
  intros Hc tr g. subst tr g. rewrite run_spec.
  unfold trace_of, globals_of. cbn [fst snd].
  unfold OptimalTransport.final_globals, OptimalTransport.run_events.
  rewrite loop_globals_without_clusters by exact Hc.
  rewrite !csv_files_app, !csv_files_loop.
  assert (Hmap : forall grp ids c,
            csv_files ClusterMapFile (callback_events (args inp) grp ids c)
            = []).
  { intros grp ids c. unfold OptimalTransport.callback_events. rewrite Hc.
    destruct (solver_is_floating_epsilon (args inp)),
      (args_verbose (args inp)); reflexivity. }
  rewrite (flat_map_ext _ (fun _ => []) (Hmap _ _)), flat_map_nil.
  rewrite (flat_map_ext _ (fun _ => [])
             (csv_files_callback_summary str transport_map_by_cluster
                (args inp) _ _)), flat_map_nil.
  unfold OptimalTransport.prologue_events, OptimalTransport.epilogue_events,
    OptimalTransport.prologue_globals.
  rewrite Hc.
  destruct (solver_is_floating_epsilon (args inp)); cbn; auto 10.
Qed.

(** *** Verbosity *)

Lemma silent_app (tr1 tr2 : list (@event num V)) :
  silent (tr1 ++ tr2) = silent tr1 ++ silent tr2.
Proof. apply List.filter_app. Qed.

(** X7: --verbose only adds printed lines: the run with the flag, its
    prints left out, makes the same calls in the same order as the run
    without the flag, which prints nothing, and both end with the same
    module variables. *)
Theorem verbose_only_adds_prints (inp : Inputs) (g0 : globals) :
  let quiet := with_args (with_verbose false (args inp)) inp in
  silent (trace_of (run inp g0)) = trace_of (run quiet g0)
  /\ silent (trace_of (run quiet g0)) = trace_of (run quiet g0)
  /\ globals_of (run inp g0) = globals_of (run quiet g0).
Proof.
  intros quiet. subst quiet. rewrite !run_spec.
  unfold trace_of, globals_of. cbn [fst snd].
  set (a := args inp).
  set (q := with_args (with_verbose false a) inp).
  assert (Hpro : prologue_globals q g0 = prologue_globals inp g0)
    by reflexivity.
  assert (Hloop : forall cs g, loop_globals (args q) cs g = loop_globals a cs g).
  { intros cs. unfold OptimalTransport.loop_globals.
    induction cs as [|c cs IH]; intros g; [reflexivity|].
    cbn [fold_left]. rewrite IH. reflexivity. }
  assert (Hfin : final_globals q g0 = final_globals inp g0).
  { unfold OptimalTransport.final_globals. rewrite Hpro. apply Hloop. }
  split; [|split; [|now rewrite Hfin]].
  - unfold OptimalTransport.run_events. rewrite Hfin, Hpro.
    rewrite !silent_app, (loop_events_view silent) by apply silent_app.
    f_equal; [|f_equal].
    + change (prologue_events (args q)) with (@prologue_events num V a).
      unfold OptimalTransport.prologue_events. fold a.
      destruct (solver_is_floating_epsilon a); reflexivity.
    + unfold OptimalTransport.loop_events. apply flat_map_ext. intros c.
      unfold OptimalTransport.callback_events, q, with_args, with_verbose,
        solver_is_floating_epsilon. cbn [args args_solver args_clusters
        args_verbose args_cluster_details]. fold a.
      destruct (py_is (args_solver a) (literal "floating_epsilon")),
        (args_clusters a), (args_verbose a), (args_cluster_details a);
        reflexivity.
    + unfold OptimalTransport.epilogue_events, q, with_args, with_verbose,
        solver_is_floating_epsilon. cbn [args args_solver args_clusters
        args_verbose args_cluster_details]. fold a.
      destruct (py_is (args_solver a) (literal "floating_epsilon")),
        (args_clusters a), (args_verbose a); reflexivity.
  - unfold OptimalTransport.run_events.
    rewrite !silent_app, (loop_events_view silent) by apply silent_app.
    f_equal; [|f_equal].
    + unfold OptimalTransport.prologue_events.
      destruct (solver_is_floating_epsilon (args q)); reflexivity.
    + unfold OptimalTransport.loop_events. apply flat_map_ext. intros c.
      unfold OptimalTransport.callback_events, q, with_args, with_verbose,
        solver_is_floating_epsilon. cbn [args args_solver args_clusters
        args_verbose args_cluster_details]. fold a.
      destruct (py_is (args_solver a) (literal "floating_epsilon")),
        (args_clusters a), (args_cluster_details a); reflexivity.
    + unfold OptimalTransport.epilogue_events, q, with_args, with_verbose,
        solver_is_floating_epsilon. cbn [args args_solver args_clusters
        args_verbose args_cluster_details]. fold a.
      destruct (py_is (args_solver a) (literal "floating_epsilon")),
        (args_clusters a); reflexivity.
Qed.

End Extras.

Lemma accumulators_collect_every_pair_witness :
  let inp := Example.clusters_with_details in
  let g := globals_of (Example.run inp Example.stale_globals) in
  let tbl :=
    align_right (clusters_file inp) (gene_expression_index (ot_helper inp)) in
  args_clusters (args inp) = Some "clusters.txt"
  /\ grouped_by_cluster g = groupby tbl
  /\ cluster_ids g = map fst (groupby tbl)
  /\ column_cell_ids_by_time g = map p1_index (pair_results (ot_helper inp))
  /\ all_cell_ids g = cells_of (pair_results (ot_helper inp)).
Proof.
  intros inp g tbl. split; [reflexivity|].
  destruct (accumulators_collect_every_pair Example.str
              Example.get_column_weights
              ClusterSummarizer.transport_map_by_cluster Example.get_weights
              Example.transport_maps_by_time inp Example.stale_globals
              "clusters.txt" eq_refl)
    as (H1 & H2 & _ & _ & H5 & H6).
  auto.
Defined.

Lemma nothing_about_clusters_without_a_clusters_file_witness :
  let inp := Example.adaptive_from_argv in
  let tr := trace_of (Example.run inp Example.stale_globals) in
  let g := globals_of (Example.run inp Example.stale_globals) in
  args_clusters (args inp) = None
  /\ csv_files ClusterMapFile tr = []
  /\ csv_files ClusterSummaryFile tr = []
  /\ cluster_transport_maps g = []
  /\ column_cell_ids_by_time g = []
  /\ all_cell_ids g = ∅
  /\ total_cluster_size g = None.
Proof.
  intros inp tr g. split; [reflexivity|].
  apply (nothing_about_clusters_without_a_clusters_file Example.str
           Example.get_column_weights
           ClusterSummarizer.transport_map_by_cluster Example.get_weights
           Example.transport_maps_by_time inp Example.stale_globals eq_refl).
Defined.

End OptimalTransportExtras.

(** * Grouping *)

Module GroupedFacts.
Import OptimalTransport Grouped.

(** *** The order of the keys *)

Lemma compare_refl (s : string) : String.compare s s = Eq.
Proof.
  induction s as [|c s IH]; [reflexivity|]. cbn.
  unfold Ascii.compare. now rewrite N.compare_refl.
Qed.

Lemma compare_lt_trans (a b c : string) :
  String.compare a b = Lt -> String.compare b c = Lt ->
  String.compare a c = Lt.
Proof.
  revert b c. induction a as [|x a IH]; intros [|y b] [|z c]; cbn;
    try congruence.
  unfold Ascii.compare.
  destruct (N.compare_spec (N_of_ascii x) (N_of_ascii y)) as [Hxy|Hxy|Hxy],
    (N.compare_spec (N_of_ascii y) (N_of_ascii z)) as [Hyz|Hyz|Hyz];
    try congruence; intros Hab Hbc.
  - rewrite Hxy, Hyz, N.compare_refl. eapply IH; eassumption.
  - rewrite Hxy. now apply N.compare_lt_iff in Hyz as ->.
  - rewrite <- Hyz. now apply N.compare_lt_iff in Hxy as ->.
  - assert (H : (N_of_ascii x < N_of_ascii z)%N) by lia.
    now apply N.compare_lt_iff in H as ->.
Qed.

Lemma compare_lt_neq (a b : string) : String.compare a b = Lt -> a <> b.
Proof. intros H ->. rewrite compare_refl in H. discriminate. Qed.

Lemma compare_gt_lt (a b : string) :
  String.compare a b = Gt -> String.compare b a = Lt.
Proof. intros H. rewrite String.compare_antisym, H. reflexivity. Qed.

Lemma ltb_lt (a b : string) :
  String.ltb a b = true <-> String.compare a b = Lt.
Proof.
  unfold String.ltb. destruct (String.compare a b); intuition congruence.
Qed.

(** In an increasing list the head is below every later key. *)
Lemma increasing_cons (k : string) (ks : list string) :
  increasing (k :: ks) = true
  <-> (forall k', k' ∈ ks -> String.compare k k' = Lt)
      /\ increasing ks = true.
Proof.
  revert k. induction ks as [|k1 ks IH]; intros k.
  - cbn. split; [intros _; split; [|reflexivity]|reflexivity].
    intros k' Hk'. apply elem_of_nil in Hk'. destruct Hk'.
  - cbn [increasing]. fold (increasing (k1 :: ks)).
    rewrite andb_true_iff, ltb_lt. split.
    + intros [Hlt Hinc]. split; [|exact Hinc].
      intros k' Hk'. apply elem_of_cons in Hk'. destruct Hk' as [->|Hk'].
      * exact Hlt.
      * apply IH in Hinc. destruct Hinc as [Hall _].
        eapply compare_lt_trans; [exact Hlt|]. now apply Hall.
    + intros [Hall Hinc]. split; [|exact Hinc]. apply Hall. left.
Qed.

Lemma increasing_NoDup (ks : list string) :
  increasing ks = true -> NoDup ks.
Proof.
  induction ks as [|k ks IH]; intros Hinc; [constructor|].
  apply increasing_cons in Hinc. destruct Hinc as [Hall Hinc].
  constructor; [|now apply IH].
  intros Hin. apply (compare_lt_neq k k); [now apply Hall|reflexivity].
Qed.

Section Rows.
Context {A : Type}.
Implicit Types (gs : list (string * list A)) (rows : list (string * A)).

(** *** Inserting a row into the groups *)

Lemma insert_grouped_keys (key : string) (x : A) gs (k : string) :
  k ∈ map fst (insert_grouped key x gs) <-> k = key \/ k ∈ map fst gs.
Proof.
  induction gs as [|[k0 xs0] gs IH]; cbn [insert_grouped map fst].
  - rewrite list_elem_of_singleton, elem_of_nil. tauto.
  - destruct (String.compare key k0) eqn:Hcmp; cbn [map fst].
    + apply String.compare_eq_iff in Hcmp. subst k0.
      rewrite !elem_of_cons. tauto.
    + rewrite !elem_of_cons. tauto.
    + rewrite !elem_of_cons, IH. tauto.
Qed.

Lemma insert_grouped_increasing (key : string) (x : A) gs :
  increasing (map fst gs) = true ->
  increasing (map fst (insert_grouped key x gs)) = true.
Proof.
  induction gs as [|[k0 xs0] gs IH]; intros Hinc; [reflexivity|].
  cbn [insert_grouped]. destruct (String.compare key k0) eqn:Hcmp.
  - exact Hinc.
  - cbn [map fst] in *. apply increasing_cons. split; [|exact Hinc].
    intros k' Hk'. apply elem_of_cons in Hk'. destruct Hk' as [->|Hk'].
    + exact Hcmp.
    + apply increasing_cons in Hinc. destruct Hinc as [Hall _].
      eapply compare_lt_trans; [exact Hcmp|]. now apply Hall.
  - cbn [map fst] in *. apply increasing_cons in Hinc.
    destruct Hinc as [Hall Hinc]. apply increasing_cons.
    split; [|now apply IH].
    intros k' Hk'. apply insert_grouped_keys in Hk'.
    destruct Hk' as [->|Hk']; [now apply compare_gt_lt|now apply Hall].
Qed.

Lemma grouped_under_absent gs (k : string) :
  k ∉ map fst gs -> grouped_under gs k = [].
Proof.
  induction gs as [|[k0 xs0] gs IH]; intros Hno; [reflexivity|].
  cbn [grouped_under]. cbn [map fst] in Hno.
  rewrite not_elem_of_cons in Hno. destruct Hno as [Hne Hno].
  rewrite bool_decide_eq_false_2 by congruence. now apply IH.
Qed.

Lemma insert_grouped_under (key : string) (x : A) gs (k : string) :
  increasing (map fst gs) = true ->
  grouped_under (insert_grouped key x gs) k
  = if bool_decide (k = key) then grouped_under gs key ++ [x]
    else grouped_under gs k.
Proof.
  induction gs as [|[k0 xs0] gs IH]; intros Hinc.
  - cbn. destruct (bool_decide_reflect (key = k)),
      (bool_decide_reflect (k = key)); congruence.
  - cbn [insert_grouped]. cbn [map fst] in Hinc.
    apply increasing_cons in Hinc. destruct Hinc as [Hall Hinc].
    destruct (String.compare key k0) eqn:Hcmp; cbn [grouped_under].
    + apply String.compare_eq_iff in Hcmp. subst k0.
      rewrite (bool_decide_eq_true_2 (key = key)) by reflexivity.
      destruct (bool_decide_reflect (key = k)),
        (bool_decide_reflect (k = key)); congruence.
    + assert (Hne : k0 <> key)
        by (intros ->; rewrite compare_refl in Hcmp; discriminate).
      rewrite (bool_decide_eq_false_2 (k0 = key)) by exact Hne.
      rewrite (grouped_under_absent gs key).
      2:{ intros Hin. apply (compare_lt_neq key key); [|reflexivity].
          eapply compare_lt_trans; [exact Hcmp|]. now apply Hall. }
      destruct (bool_decide_reflect (key = k)),
        (bool_decide_reflect (k = key)); try congruence; reflexivity.
    + assert (Hne : k0 <> key)
        by (intros ->; rewrite compare_refl in Hcmp; discriminate).
      rewrite (bool_decide_eq_false_2 (k0 = key)) by exact Hne.
      rewrite (IH Hinc).
      destruct (bool_decide_reflect (k0 = k)),
        (bool_decide_reflect (k = key)); try congruence; reflexivity.
Qed.

(** *** Grouping a table *)

Lemma rows_with_app (k : string) rows1 rows2 :
  rows_with k (rows1 ++ rows2) = rows_with k rows1 ++ rows_with k rows2.
Proof. unfold rows_with. now rewrite List.filter_app, map_app. Qed.

Lemma rows_with_row (k key : string) (x : A) :
  rows_with k [(key, x)] = if bool_decide (key = k) then [x] else [].
Proof.
  unfold rows_with. cbn [List.filter fst].
  destruct (bool_decide (key = k)); reflexivity.
Qed.

Lemma group_pairs_snoc rows (r : string * A) :
  group_pairs (rows ++ [r]) = insert_grouped r.1 r.2 (group_pairs rows).
Proof. unfold group_pairs. now rewrite fold_left_app. Qed.

Lemma group_pairs_spec rows :
  increasing (map fst (group_pairs rows)) = true
  /\ (forall k, grouped_under (group_pairs rows) k = rows_with k rows)
  /\ (forall k, k ∈ map fst (group_pairs rows) <-> rows_with k rows <> []).
Proof.
  induction rows as [|[key x] rows (Hinc & Hgrp & Hkeys)] using rev_ind.
  - split; [reflexivity|]. split; [reflexivity|].
    intros k. cbn. rewrite elem_of_nil. tauto.
  - rewrite group_pairs_snoc. cbn [fst snd].
    split; [now apply insert_grouped_increasing|]. split.
    + intros k. rewrite insert_grouped_under by exact Hinc.
      rewrite rows_with_app, !Hgrp, rows_with_row.
      destruct (bool_decide_reflect (k = key)) as [->|Hne].
      * now rewrite bool_decide_eq_true_2.
      * rewrite bool_decide_eq_false_2 by congruence.
        now rewrite app_nil_r.
    + intros k.
      rewrite insert_grouped_keys, Hkeys, rows_with_app, rows_with_row.
      destruct (bool_decide_reflect (key = k)) as [->|Hne].
      * split; [intros _|auto].
        intros H. apply app_eq_nil in H. destruct H; discriminate.
      * rewrite app_nil_r. split; [|auto].
        intros [->|H]; [congruence|exact H].
Qed.

Lemma grouped_under_member gs (k : string) (xs : list A) :
  NoDup (map fst gs) -> (k, xs) ∈ gs -> grouped_under gs k = xs.
Proof.
  induction gs as [|[k0 xs0] gs IH]; intros Hnd Hin.
  - apply elem_of_nil in Hin. destruct Hin.
  - cbn [map fst] in Hnd. apply NoDup_cons in Hnd. destruct Hnd as [Hno Hnd].
    cbn [grouped_under]. apply elem_of_cons in Hin.
    destruct Hin as [[= -> ->]|Hin].
    + now rewrite bool_decide_eq_true_2.
    + rewrite bool_decide_eq_false_2; [now apply IH|].
      intros ->. apply Hno.
      apply list_elem_of_fmap. exists (k, xs). auto.
Qed.

Lemma grouped_under_present gs (k : string) :
  k ∈ map fst gs -> (k, grouped_under gs k) ∈ gs.
Proof.
  induction gs as [|[k0 xs0] gs IH]; intros Hin.
  - apply elem_of_nil in Hin. destruct Hin.
  - cbn [grouped_under]. destruct (bool_decide_reflect (k0 = k)) as [->|Hne].
    + left.
    + right. apply IH. cbn [map fst] in Hin.
      apply elem_of_cons in Hin. destruct Hin; [congruence|assumption].
Qed.

(** The groups of a table: increasing distinct keys; under each key the
    rows of the table that have it, in order, at least one. *)
Lemma group_pairs_members rows :
  increasing (map fst (group_pairs rows)) = true
  /\ NoDup (map fst (group_pairs rows))
  /\ (forall k xs,
        (k, xs) ∈ group_pairs rows <-> xs = rows_with k rows /\ xs <> []).
Proof.
  destruct (group_pairs_spec rows) as (Hinc & Hgrp & Hkeys).
  pose proof (increasing_NoDup _ Hinc) as Hnd.
  split; [exact Hinc|]. split; [exact Hnd|].
  intros k xs. split.
  - intros Hin. rewrite <- Hgrp, (grouped_under_member _ _ _ Hnd Hin).
    split; [reflexivity|].
    rewrite <- (grouped_under_member _ _ _ Hnd Hin), Hgrp. apply Hkeys.
    apply list_elem_of_fmap. exists (k, xs). auto.
  - intros [-> Hne]. rewrite <- Hgrp. apply grouped_under_present.
    now apply Hkeys.
Qed.

End Rows.

(** *** The cluster table *)

Lemma group_insert_as_grouped (k cell : string) (gs : Grouping) :
  group_insert k cell gs = insert_grouped k cell gs.
Proof.
  induction gs as [|[k0 cells0] gs IH]; [reflexivity|].
  cbn [group_insert insert_grouped].
  destruct (String.compare k k0); [reflexivity|reflexivity|].
  now rewrite IH.
Qed.

Lemma groupby_as_pairs (tbl : ClusterTable) :
  groupby tbl = group_pairs (assigned tbl).
Proof.
  unfold groupby, group_pairs, assigned.
  generalize (@nil (string * list string)).
  induction tbl as [|[cell [key|]] tbl IH]; intros gs; [reflexivity| |];
    cbn; rewrite ?group_insert_as_grouped; apply IH.
Qed.

Lemma cells_with_assigned (k : string) (tbl : ClusterTable) :
  rows_with k (assigned tbl) = cells_with k tbl.
Proof.
  unfold rows_with, cells_with, assigned.
  induction tbl as [|[cell [key|]] tbl IH]; [reflexivity| |].
  - cbn -[bool_decide].
    destruct (bool_decide_reflect (key = k)) as [->|Hne].
    + rewrite bool_decide_eq_true_2 by reflexivity. cbn -[bool_decide].
      f_equal. exact IH.
    + rewrite bool_decide_eq_false_2 by congruence. exact IH.
  - cbn -[bool_decide].
    rewrite bool_decide_eq_false_2 by discriminate. exact IH.
Qed.

(** X9: [groupby] on the cluster table yields each cluster once; a
    cluster holds exactly the cells of the rows with that cluster, in row
    order, never none; the cells without a cluster are in no group. *)
Theorem groups_partition_the_assigned_rows (tbl : ClusterTable) :
  NoDup (map fst (groupby tbl))
  /\ (forall k cells,
        (k, cells) ∈ groupby tbl
        <-> cells = cells_with k tbl /\ cells <> []).
Proof.
  rewrite groupby_as_pairs.
  destruct (group_pairs_members (assigned tbl)) as (_ & Hnd & Hmem).
  split; [exact Hnd|].
  intros k cells. rewrite Hmem, cells_with_assigned. reflexivity.
Qed.

(** *** Joining the cluster file onto the expression table *)

Lemma rows_of_label (tbl : list (string * string)) (id : string) :
  NoDup (map fst tbl) ->
  List.filter (fun r => bool_decide (r.1 = id)) tbl
  = match (list_to_map tbl : gmap string string) !! id with
    | Some v => [(id, v)]
    | None => []
    end.
Proof.
  induction tbl as [|[k v] tbl IH]; intros Hnd; [reflexivity|].
  cbn [map fst] in Hnd. apply NoDup_cons in Hnd. destruct Hnd as [Hno Hnd].
  cbn [List.filter list_to_map foldr fst].
  change (foldr (fun '(k, v) => <[k:=v]>) ∅ tbl)
    with (list_to_map tbl : gmap string string).
  destruct (bool_decide_reflect (k = id)) as [->|Hne].
  - rewrite lookup_insert_eq. rewrite (IH Hnd).
    now rewrite (not_elem_of_list_to_map_1 _ _ Hno).
  - rewrite lookup_insert_ne by exact Hne. now apply IH.
Qed.

Lemma align_right_lookup (tbl : list (string * string))
    (idx : list string) :
  NoDup (map fst tbl) ->
  align_right tbl idx
  = map (fun id => (id, (list_to_map tbl : gmap string string) !! id)) idx.
Proof.
  intros Hnd. unfold align_right.
  induction idx as [|id idx IH]; [reflexivity|].
  cbn [flat_map map]. rewrite <- IH, (rows_of_label tbl id Hnd).
  destruct (list_to_map tbl !! id); reflexivity.
Qed.

(** X8: when the cluster file names each cell once, joining it onto the
    expression table yields one row per cell of the expression table, in
    the order of that table, with the cluster the file gives the cell, or
    none when the file does not have the cell; cells that only the file
    has are dropped. *)
Theorem align_right_is_a_lookup_per_cell (tbl : list (string * string))
    (idx : list string) :
  NoDup (map fst tbl) ->
  align_right tbl idx
  = map (fun id => (id, (list_to_map tbl : gmap string string) !! id)) idx
  /\ map fst (align_right tbl idx) = idx.
Proof.
  intros Hnd. rewrite (align_right_lookup tbl idx Hnd).
  split; [reflexivity|]. rewrite map_map. cbn. apply map_id.
Qed.

Lemma align_right_is_a_lookup_per_cell_witness :
  NoDup (map fst [("b", "k2"); ("a", "k1")])
  /\ align_right [("b", "k2"); ("a", "k1")] ["a"; "c"; "b"]
     = [("a", Some "k1"); ("c", None); ("b", Some "k2")].
Proof.
  assert (Hnd : NoDup (map fst [("b", "k2"); ("a", "k1")])).
  { apply (bool_decide_eq_true_1 _). vm_compute. reflexivity. }
  split; [exact Hnd|].
  destruct (align_right_is_a_lookup_per_cell
              [("b", "k2"); ("a", "k1")] ["a"; "c"; "b"] Hnd) as [-> _].
  vm_compute. reflexivity.
Defined.

(** X10: when the cluster file names each cell once, a cell is grouped
    under a cluster exactly when the expression table has the cell and the
    file gives it that cluster. *)
Theorem a_cell_is_grouped_under_its_cluster (tbl : list (string * string))
    (idx : list string) (cell k : string) :
  NoDup (map fst tbl) ->
  (exists cells,
     (k, cells) ∈ groupby (align_right tbl idx) /\ cell ∈ cells)
  <-> cell ∈ idx
      /\ (list_to_map tbl : gmap string string) !! cell = Some k.
Proof.
  intros Hnd. rewrite groupby_as_pairs.
  destruct (group_pairs_members (assigned (align_right tbl idx)))
    as (_ & _ & Hmem).
  assert (Hcells : cell ∈ cells_with k (align_right tbl idx)
                   <-> cell ∈ idx
                       /\ (list_to_map tbl : gmap string string) !! cell
                          = Some k).
  { rewrite (align_right_lookup tbl idx Hnd). unfold cells_with.
    rewrite !list_elem_of_In, in_map_iff. split.
    - intros ([c v] & <- & Hin). apply filter_In in Hin.
      destruct Hin as [Hin Hb]. apply bool_decide_eq_true in Hb.
      cbn in Hb. subst v. apply in_map_iff in Hin.
      destruct Hin as (id & [= <- Hv] & Hid). cbn.
      split; [first [exact Hid|apply list_elem_of_In; exact Hid]|congruence].
    - intros [Hid Hv]. exists (cell, Some k). split; [reflexivity|].
      apply filter_In. split; [|now apply bool_decide_eq_true].
      apply in_map_iff. exists cell.
      split; [now rewrite Hv|].
      first [exact Hid|apply list_elem_of_In; exact Hid]. }
  rewrite <- Hcells, <- cells_with_assigned. split.
  - intros (cells & Hin & Hc). apply Hmem in Hin.
    destruct Hin as [-> _]. exact Hc.
  - intros Hc. eexists. split; [|exact Hc]. apply Hmem.
    split; [reflexivity|]. intros Hnil. rewrite Hnil in Hc.
    apply elem_of_nil in Hc. destruct Hc.
Qed.

Lemma a_cell_is_grouped_under_its_cluster_witness :
  NoDup (map fst [("b", "k2"); ("a", "k1")])
  /\ exists cells,
       ("k1", cells) ∈ groupby
                         (align_right [("b", "k2"); ("a", "k1")]
                            ["a"; "c"; "b"])
       /\ "a" ∈ cells.
Proof.
  assert (Hnd : NoDup (map fst [("b", "k2"); ("a", "k1")])).
  { apply (bool_decide_eq_true_1 _). vm_compute. reflexivity. }
  split; [exact Hnd|].
  apply (a_cell_is_grouped_under_its_cluster [("b", "k2"); ("a", "k1")]
           ["a"; "c"; "b"] "a" "k1" Hnd).
  split; [|vm_compute; reflexivity].
  apply (bool_decide_eq_true_1 _). vm_compute. reflexivity.
Defined.

End GroupedFacts.

(** * More on the plotting helpers *)

Module PlotExtras.
Import Py Plot LogOdds PlotFacts.

(** *** Kernel smoothing *)

Lemma Rsum_zip_affine (a b : R) (w : list R) :
  forall ys : list R,
    length ys = length w ->
    Rsum (zip_with Rmult (map (fun y => a * y + b)%R ys) w)
    = (a * Rsum (zip_with Rmult ys w) + b * Rsum w)%R.
Proof.
  induction w as [|v w IH]; intros [|y ys] Hlen; try discriminate;
    cbn [map zip_with Rsum fold_right].
  - lra.
  - injection Hlen as Hlen. specialize (IH ys Hlen).
    unfold Rsum in IH. rewrite IH. lra.
Qed.

Lemma kernel_weights_length (x : R) (xi : list R) (sigma : R) :
  length (kernel_weights x xi sigma) = length xi.
Proof. unfold kernel_weights. now rewrite !length_map. Qed.

Lemma kernel_weights_total (x : R) (xi : list R) (sigma : R) :
  xi <> [] -> (0 < Rsum (kernel_weights x xi sigma))%R.
Proof.
  intros Hne. apply Rsum_positive; [|apply kernel_weights_positive].
  intros Hnil. apply Hne, length_zero_iff_nil.
  now rewrite <- (kernel_weights_length x xi sigma), Hnil.
Qed.

(** X11: rescaling and shifting the sample values rescales and shifts the
    interpolated value: for a non-empty sample of matching lengths and a
    bandwidth other than zero, [interpolate] of [a * yi + b] is [a] times
    [interpolate] of [yi], plus [b]. *)
Theorem interpolate_commutes_with_affine_maps (x : R) (xi yi : list R)
    (sigma a b : R) :
  xi <> [] ->
  length xi = length yi ->
  sigma <> 0%R ->
  exists r,
    interpolate x xi yi sigma = Returned r
    /\ interpolate x xi (map (fun y => a * y + b)%R yi) sigma
       = Returned (a * r + b)%R.
Proof.
  intros Hne Hlen _. eexists. split; [now apply interpolate_returns|].
  rewrite interpolate_returns by now rewrite length_map.
  f_equal.
  rewrite Rsum_zip_affine by now rewrite kernel_weights_length.
  pose proof (kernel_weights_total x xi sigma Hne). field. lra.
Qed.

Lemma interpolate_commutes_with_affine_maps_witness :
  [0%R; 1%R] <> []
  /\ length [0%R; 1%R] = length [3%R; 5%R]
  /\ 1%R <> 0%R
  /\ exists r,
       interpolate 2 [0%R; 1%R] [3%R; 5%R] 1 = Returned r
       /\ interpolate 2 [0%R; 1%R]
            (map (fun y => 2 * y + 1)%R [3%R; 5%R]) 1
          = Returned (2 * r + 1)%R.
Proof.
  assert (Hne : [0%R; 1%R] <> []) by discriminate.
  split; [exact Hne|]. split; [reflexivity|]. split; [exact R1_neq_R0|].
  apply (interpolate_commutes_with_affine_maps 2 [0%R; 1%R] [3%R; 5%R] 1
           2 1 Hne eq_refl R1_neq_R0).
Defined.

Lemma kernel_weights_shift (x t : R) (xi : list R) (sigma : R) :
  kernel_weights (x + t) (map (fun v => v + t)%R xi) sigma
  = kernel_weights x xi sigma.
Proof.
  unfold kernel_weights. rewrite !map_map. apply map_ext. intros v.
  f_equal. f_equal. ring.
Qed.

Lemma kernel_weights_opp (x : R) (xi : list R) (sigma : R) :
  kernel_weights x xi (- sigma) = kernel_weights x xi sigma.
Proof.
  unfold kernel_weights. apply map_ext. intros d.
  f_equal. f_equal. ring.
Qed.

Lemma interpolate_by_weights (x x' : R) (xi xi' yi : list R)
    (sigma sigma' : R) :
  kernel_weights x xi sigma = kernel_weights x' xi' sigma' ->
  interpolate x xi yi sigma = interpolate x' xi' yi sigma'.
Proof.
  intros Hw. unfold interpolate.
  change (map (fun d => exp (d / (2 * sigma ^ 2)))
            (map (fun v => (v * - v)%R) (map (fun a => (x - a)%R) xi)))
    with (kernel_weights x xi sigma).
  change (map (fun d => exp (d / (2 * sigma' ^ 2)))
            (map (fun v => (v * - v)%R) (map (fun a => (x' - a)%R) xi')))
    with (kernel_weights x' xi' sigma').
  now rewrite Hw.
Qed.

(** X12: in exact arithmetic [interpolate] depends on [x] and [xi] only
    through the offsets [x - xi], and on [sigma] only through its square:
    moving the point and the sample positions by the same [t] changes
    nothing, nor does the sign of [sigma]. *)
Theorem interpolate_sees_offsets_and_squared_bandwidth (x t : R)
    (xi yi : list R) (sigma : R) :
  interpolate (x + t) (map (fun v => v + t)%R xi) yi sigma
  = interpolate x xi yi sigma
  /\ interpolate x xi yi (- sigma) = interpolate x xi yi sigma.
Proof.
  split; apply interpolate_by_weights;
    [apply kernel_weights_shift|apply kernel_weights_opp].
Qed.











(** *** Validation ratio *)

Ltac step_plt :=
  cbv [mbind M_bind mret M_ret bind ret raise lift modify when plt
       plot_line outcome_bind].

Lemma elementwise_same_length {A B} (f : A -> A -> B) (a b : list A) :
  length a = length b -> elementwise f a b = Returned (zip_with f a b).
Proof.
  intros Hlen. unfold elementwise, broadcast2.
  now rewrite bool_decide_eq_true_2 by exact Hlen.
Qed.

Lemma matching_differences_cancel (a b : list Q) :
  forallb (fun p => Qeq_bool p.1 p.2) (zip a b) = true ->
  (Qsum (zip_with Qminus a b) == 0)%Q.
Proof.
  revert b. induction a as [|x a IH]; intros [|y b]; cbn; try reflexivity.
  intros H. apply andb_true_iff in H. destruct H as [Hxy H].
  apply Qeq_bool_iff in Hxy. specialize (IH b H).
  unfold Qsum in IH. rewrite IH, Hxy. ring.
Qed.

Lemma midpoints_match_spec (a b : string) (df : list Row) :
  midpoints_match a b df = true ->
  length (rows_named a (sort_values df))
  = length (rows_named b (sort_values df))
  /\ Qeq_bool
       (Qsum
          (zip_with Qminus
             (map interval_mid (rows_named a (sort_values df)))
             (map interval_mid (rows_named b (sort_values df))))) 0
     = true.
Proof.
  unfold midpoints_match, mids. intros H.
  apply andb_true_iff in H. destruct H as [Hlen Hall].
  apply bool_decide_eq_true in Hlen. rewrite !length_map in Hlen.
  split; [exact Hlen|].
  apply Qeq_bool_iff. now apply matching_differences_cancel.
Qed.

(** X16: when the interpolated series has the same midpoints, one by one,
    as each of the two null series, the function returns, and it draws the
    figure, the title with the two scores, the axis labels, the two ratio
    lines over the interpolated midpoints (one ratio per midpoint), the
    legend, and saves the file, in this order. *)
Theorem aligned_series_are_plotted (df : list Row) (filename : string)
    (tr : list plt_event) :
  midpoints_match "I" "Rg" df = true ->
  midpoints_match "I" "R" df = true ->
  exists with_growth no_growth,
    plot_ot_validation_ratio df filename tr
    = (Returned tt,
       tr ++ [Figure 10 10;
              ValidationTitle (sum_finite with_growth)
                (sum_finite no_growth);
              Xlabel "time"; Ylabel "ratio";
              PlotLine (mids "I" df) with_growth "with growth";
              PlotLine (mids "I" df) no_growth "no growth";
              Legend; Savefig filename])
    /\ with_growth
       = zip_with true_divide (map mean (rows_named "I" (sort_values df)))
           (map mean (rows_named "Rg" (sort_values df)))
    /\ no_growth
       = zip_with true_divide (map mean (rows_named "I" (sort_values df)))
           (map mean (rows_named "R" (sort_values df)))
    /\ length with_growth = length (mids "I" df)
    /\ length no_growth = length (mids "I" df).
Proof.
  intros Hg Hn.
  apply midpoints_match_spec in Hg. destruct Hg as [Hlg Hsg].
  apply midpoints_match_spec in Hn. destruct Hn as [Hln Hsn].
  do 2 eexists. split; [|split; [reflexivity|split; [reflexivity|]]].
  - unfold plot_ot_validation_ratio, mids.
    rewrite !elementwise_same_length by now rewrite !length_map.
    step_plt. rewrite Hsg, Hsn. cbn [negb].
    rewrite !length_zip_with, !length_map, <- Hlg, <- Hln, !Nat.min_id.
    rewrite !bool_decide_eq_true_2 by reflexivity.
    rewrite <- !app_assoc. reflexivity.
  - unfold mids.
    rewrite !length_zip_with, !length_map, <- Hlg, <- Hln, !Nat.min_id.
    auto.
Qed.

Lemma aligned_series_are_plotted_witness :
  midpoints_match "I" "Rg" PlotSamples.aligned = true
  /\ midpoints_match "I" "R" PlotSamples.aligned = true
  /\ exists with_growth no_growth,
       plot_ot_validation_ratio PlotSamples.aligned "ratio.png" []
       = (Returned tt,
          [Figure 10 10;
           ValidationTitle (sum_finite with_growth) (sum_finite no_growth);
           Xlabel "time"; Ylabel "ratio";
           PlotLine (mids "I" PlotSamples.aligned) with_growth "with growth";
           PlotLine (mids "I" PlotSamples.aligned) no_growth "no growth";
           Legend; Savefig "ratio.png"]).
Proof.
  split; [reflexivity|]. split; [reflexivity|].
  destruct (aligned_series_are_plotted PlotSamples.aligned "ratio.png" []
              eq_refl eq_refl) as (wg & ng & H & _).
  exists wg, ng. exact H.
Defined.

Lemma elementwise_error {A B} (f : A -> A -> B) (a b : list A) (e : exn) :
  elementwise f a b = Raised e ->
  e = ValueError "operands could not be broadcast together".
Proof.
  unfold elementwise, broadcast2, broadcast_error.
  destruct (bool_decide (length a = length b)); [discriminate|].
  destruct a as [|x [|x' a]], b as [|y [|y' b]]; cbn; congruence.
Qed.

(** X18: whenever the function raises
    ValueError('Timepoints are not aligned'), it has made no call on
    [plt]: no figure is created and nothing is saved. *)
Theorem nothing_is_drawn_when_not_aligned (df : list Row)
    (filename : string) (tr : list plt_event) :
  (plot_ot_validation_ratio df filename tr).1 = Raised not_aligned ->
  (plot_ot_validation_ratio df filename tr).2 = tr.
Proof.
  unfold plot_ot_validation_ratio.
  set (i := rows_named "I" (sort_values df)).
  set (g := rows_named "Rg" (sort_values df)).
  set (n := rows_named "R" (sort_values df)).
  destruct (elementwise Qminus (map interval_mid i) (map interval_mid g))
    as [d1|e1] eqn:H1; step_plt; [|reflexivity].
  destruct (Qeq_bool (Qsum d1) 0); cbn [negb fst snd]; [|reflexivity].
  destruct (elementwise Qminus (map interval_mid i) (map interval_mid n))
    as [d2|e2] eqn:H2; [|reflexivity].
  destruct (Qeq_bool (Qsum d2) 0); cbn [negb fst snd]; [|reflexivity].
  destruct (elementwise true_divide (map mean i) (map mean g))
    as [r1|e3] eqn:H3.
  2:{ apply elementwise_error in H3. subst e3. discriminate. }
  destruct (elementwise true_divide (map mean i) (map mean n))
    as [r2|e4] eqn:H4.
  2:{ apply elementwise_error in H4. subst e4. discriminate. }
  destruct (bool_decide (length (map interval_mid i) = length r1));
    [|discriminate].
  destruct (bool_decide (length (map interval_mid i) = length r2));
    discriminate.
Qed.

Lemma nothing_is_drawn_when_not_aligned_witness :
  (plot_ot_validation_ratio PlotSamples.late_growth "ratio.png"
     [Savefig "earlier.png"]).1 = Raised not_aligned
  /\ (plot_ot_validation_ratio PlotSamples.late_growth "ratio.png"
        [Savefig "earlier.png"]).2 = [Savefig "earlier.png"].
Proof.
  assert (H : (plot_ot_validation_ratio PlotSamples.late_growth "ratio.png"
                 [Savefig "earlier.png"]).1 = Raised not_aligned)
    by (vm_compute; reflexivity).
  split; [exact H|].
  apply (nothing_is_drawn_when_not_aligned PlotSamples.late_growth
           "ratio.png" [Savefig "earlier.png"] H).
Defined.


(** *** Log odds *)

Lemma np_is_bound {S} (s : S) : use "np" s = (Returned tt, s).
Proof.
  unfold use. erewrite bind_returned; [reflexivity|].
  unfold load_global.
  replace (module_globals !! "np") with (Some (VModule "numpy"))
    by (vm_compute; reflexivity).
  reflexivity.
Qed.

Lemma column_present (ds : AnnData) (n : string) :
  n ∈ var_names ds ->
  exists j, column ds n = Returned (map (fun row => nth j row 0%R) (X ds)).
Proof.
  intros Hin. unfold column.
  destruct (list_find (fun v => v = n) (var_names ds)) as [[j v]|] eqn:Hf.
  - now exists j.
  - apply list_find_None in Hf. rewrite Forall_forall in Hf.
    exfalso. now apply (Hf n).
Qed.

Lemma column_absent (ds : AnnData) (n : string) :
  n ∉ var_names ds -> column ds n = Raised (KeyError n).
Proof.
  intros Hno. unfold column.
  destruct (list_find (fun v => v = n) (var_names ds)) as [[j v]|] eqn:Hf;
    [|reflexivity].
  apply list_find_Some in Hf. destruct Hf as (Hj & -> & _).
  exfalso. apply Hno. eapply list_elem_of_lookup_2. exact Hj.
Qed.

Lemma divide_where_zip (a b : list R) :
  length a = length b ->
  divide_where a b (map (fun _ => 0%R) a) (map nonzero b)
  = Returned (guarded_quotients a b).
Proof.
  revert b. induction a as [|x a IH]; intros [|y b] Hlen; try discriminate;
    [reflexivity|].
  injection Hlen as Hlen. cbn [map divide_where].
  rewrite (IH b Hlen). unfold guarded_quotients. cbn [zip_with].
  unfold nonzero, checked_divide.
  destruct (bool_decide (y = 0%R)); reflexivity.
Qed.

Lemma log_odds_same_length (fate1 fate2 : list R) :
  length fate1 = length fate2 ->
  log_odds fate1 fate2
  = Returned
      (map (fun v => np_log (1e-9 + v)) (guarded_quotients fate1 fate2)).
Proof.
  intros Hlen. unfold log_odds, np_divide. rewrite !length_map.
  unfold broadcast_to.
  rewrite !bool_decide_eq_true_2 by (rewrite ?length_map; auto).
  cbn [mbind outcome_bind]. now rewrite divide_where_zip.
Qed.

(** X19: when both populations are columns of the data, [plot_log_odds]
    returns (every name it reads is bound, unlike [plot_triangle]); it
    creates the figure, scatters one log odds per cell against the days,
    labels the axes, sets the title, and saves the figure only when a file
    name is given, in this order. *)
Theorem plot_log_odds_draws_one_point_per_cell (fate_ds : AnnData)
    (name1 name2 : string) (filename : option string)
    (tr : list plt_event) :
  name1 ∈ var_names fate_ds ->
  name2 ∈ var_names fate_ds ->
  exists p,
    plot_log_odds fate_ds name1 name2 filename tr
    = (Returned tt,
       tr ++ [Figure 10 10; Scatter (obs_day fate_ds) p; Xlabel "Day";
              Ylabel "Log Odds"; Title (name1 +:+ " vs. " +:+ name2)]
          ++ match filename with
             | Some f => [Savefig f]
             | None => []
             end)
    /\ length p = length (X fate_ds).
Proof.
  unfold plot_log_odds.
  rewrite (bind_returned _ _ _ _ _ (plt_is_bound tr)).
  intros H1 H2. destruct (column_present _ _ H1) as (j1 & ->).
  destruct (column_present _ _ H2) as (j2 & ->).
  eexists. split.
  - step_plt. cbn [fst snd].
    rewrite !np_is_bound. rewrite log_odds_same_length
      by now rewrite !length_map.
    rewrite !plt_is_bound. unfold save_if_named.
    destruct filename as [f|]; step_plt; rewrite ?plt_is_bound;
      cbn [fst snd]; rewrite <- ?app_assoc; reflexivity.
  - unfold guarded_quotients.
    rewrite length_map, length_zip_with, !length_map. apply Nat.min_id.
Qed.

Lemma plot_log_odds_draws_one_point_per_cell_witness :
  "A" ∈ var_names PlotSamples.two_fates
  /\ "B" ∈ var_names PlotSamples.two_fates
  /\ exists p,
       plot_log_odds PlotSamples.two_fates "A" "B" None []
       = (Returned tt,
          [Figure 10 10; Scatter (obs_day PlotSamples.two_fates) p;
           Xlabel "Day"; Ylabel "Log Odds"; Title "A vs. B"])
       /\ length p = 2.
Proof.
  assert (H1 : "A" ∈ var_names PlotSamples.two_fates)
    by (cbn; repeat constructor).
  assert (H2 : "B" ∈ var_names PlotSamples.two_fates)
    by (cbn; repeat constructor).
  split; [exact H1|]. split; [exact H2|].
  destruct (plot_log_odds_draws_one_point_per_cell PlotSamples.two_fates
              "A" "B" None [] H1 H2) as (p & Hp & Hl).
  exists p. split; [|exact Hl].
  rewrite Hp. reflexivity.
Defined.

(** X20: when a population is not a column of the data, the function
    raises KeyError for it, the first population before the second, after
    the figure was created and before anything is drawn on it. *)
Theorem missing_population_fails_after_the_figure (fate_ds : AnnData)
    (name1 name2 : string) (filename : option string)
    (tr : list plt_event) :
  (name1 ∉ var_names fate_ds ->
   plot_log_odds fate_ds name1 name2 filename tr
   = (Raised (KeyError name1), tr ++ [Figure 10 10]))
  /\ (name1 ∈ var_names fate_ds -> name2 ∉ var_names fate_ds ->
      plot_log_odds fate_ds name1 name2 filename tr
      = (Raised (KeyError name2), tr ++ [Figure 10 10])).
Proof.
  unfold plot_log_odds.
  rewrite (bind_returned _ _ _ _ _ (plt_is_bound tr)).
  split.
  - intros H1. rewrite (column_absent _ _ H1). reflexivity.
  - intros H1 H2. destruct (column_present _ _ H1) as (j1 & ->).
    rewrite (column_absent _ _ H2). reflexivity.
Qed.

Lemma missing_population_fails_after_the_figure_witness :
  "A" ∈ var_names PlotSamples.two_fates
  /\ ("C" ∉ var_names PlotSamples.two_fates)
  /\ plot_log_odds PlotSamples.two_fates "A" "C" None []
     = (Raised (KeyError "C"), [Figure 10 10]).
Proof.
  assert (H1 : "A" ∈ var_names PlotSamples.two_fates)
    by (cbn; repeat constructor).
  assert (H2 : "C" ∉ var_names PlotSamples.two_fates)
    by (cbn; rewrite !not_elem_of_cons; repeat split;
        [discriminate|discriminate|apply not_elem_of_nil]).
  split; [exact H1|]. split; [exact H2|].
  destruct (missing_population_fails_after_the_figure PlotSamples.two_fates
              "A" "C" None []) as [_ H].
  apply H; assumption.
Defined.

Lemma ln_argument_positive (a b : R) :
  (0 <= a)%R -> (0 <= b)%R ->
  (0 < 1e-9 + (if nonzero b then a / b else 0))%R.
Proof.
  intros Ha Hb. unfold nonzero.
  destruct (bool_decide_reflect (b = 0%R)) as [->|Hne]; cbn [negb]; [lra|].
  assert (0 <= a / b)%R; [|lra].
  apply Rmult_le_pos; [exact Ha|]. left. apply Rinv_0_lt_compat. lra.
Qed.

(** X21: for fates of equal length that are not negative, the function
    computes one log odds per cell and none of them is nan or minus
    infinity: the argument of the logarithm is at least 1e-9. *)
Theorem log_odds_of_fates_are_defined (fate1 fate2 : list R) :
  length fate1 = length fate2 ->
  Forall (fun a => 0 <= a)%R fate1 ->
  Forall (fun b => 0 <= b)%R fate2 ->
  exists p,
    log_odds fate1 fate2 = Returned p
    /\ length p = length fate1
    /\ Forall is_Some p.
Proof.
  intros Hlen H1 H2. eexists.
  split; [apply (log_odds_same_length _ _ Hlen)|].
  split.
  { unfold guarded_quotients. rewrite length_map, length_zip_with. lia. }
  apply Forall_fmap. unfold guarded_quotients. revert fate2 Hlen H2.
  induction H1 as [|a fate1 Ha H1 IH]; intros [|b fate2] Hlen H2;
    try discriminate; [constructor|].
  apply Forall_cons in H2. destruct H2 as [Hb H2]. injection Hlen as Hlen.
  cbn [zip_with]. constructor; [|now apply IH].
  cbn [compose]. unfold np_log.
  destruct (Rlt_dec 0 (1e-9 + (if nonzero b then a / b else 0)))
    as [_|Hno]; [eexists; reflexivity|].
  exfalso. apply Hno. now apply ln_argument_positive.
Qed.

Lemma log_odds_of_fates_are_defined_witness :
  length [1%R; 0%R] = length [3%R; 0%R]
  /\ Forall (fun a => 0 <= a)%R [1%R; 0%R]
  /\ Forall (fun b => 0 <= b)%R [3%R; 0%R]
  /\ exists p,
       log_odds [1%R; 0%R] [3%R; 0%R] = Returned p
       /\ length p = 2
       /\ Forall is_Some p.
Proof.
  assert (H1 : Forall (fun a => 0 <= a)%R [1%R; 0%R])
    by (repeat constructor; lra).
  assert (H2 : Forall (fun b => 0 <= b)%R [3%R; 0%R])
    by (repeat constructor; lra).
  split; [reflexivity|]. split; [exact H1|]. split; [exact H2|].
  apply (log_odds_of_fates_are_defined [1%R; 0%R] [3%R; 0%R] eq_refl H1 H2).
Defined.

End PlotExtras.

(** * The summary-statistics figure *)

Module PlotStatsFacts.
Import Py Plot Grouped PlotStats PlotFacts GroupedFacts PlotExtras.

Ltac step_stats :=
  cbv [mbind M_bind mret M_ret bind ret raise lift get modify when draw
       stats_plot legend_figure];
  cbn [fst snd].


Lemma drawn_lengths (bandwidth : option R) (d : list StatRow) :
  length (drawn bandwidth d).1.2 = length (drawn bandwidth d).1.1
  /\ length (drawn bandwidth d).2 = length (drawn bandwidth d).1.1.
Proof.
  unfold drawn. destruct bandwidth as [bw|]; cbn [fst snd];
    rewrite !length_map; auto.
Qed.

Lemma smoothing_returns (d : list StatRow) (bw : R) :
  (xm ← kernel_smooth (map stat_mid d) (map stat_mean d) 0
          (List.last (map stat_mid d) 0%R) 1000 bw;
   xs ← kernel_smooth (map stat_mid d) (map stat_std d) 0
          (List.last (map stat_mid d) 0%R) 1000 bw;
   Returned (xs.1, xm.2, xs.2))
  = Returned (drawn (Some bw) d).
Proof.
  rewrite !kernel_smooth_as_average by now rewrite !length_map.
  reflexivity.
Qed.

(** One pass of the loop body. *)
Lemma plot_series_spec (bandwidth : option R) (p : string)
    (d : list StatRow) (st : stats_state) :
  plot_series bandwidth p d st
  = (Returned tt,
     match ot_validation_legend !! p with
     | Some e =>
         (dict_set p e st.1, st.2 ++ series_events bandwidth (p, e, d))
     | None => st
     end).
Proof.
  unfold plot_series. destruct st as [lg tr].
  destruct (ot_validation_legend !! p) as [e|]; [|reflexivity].
  destruct (drawn_lengths bandwidth d) as [Hm Hs].
  assert (Hsmooth :
    match bandwidth with
    | Some bw =>
        xm ← kernel_smooth (map stat_mid d) (map stat_mean d) 0
               (List.last (map stat_mid d) 0%R) 1000 bw;
        xs ← kernel_smooth (map stat_mid d) (map stat_std d) 0
               (List.last (map stat_mid d) 0%R) 1000 bw;
        Returned (xs.1, xm.2, xs.2)
    | None =>
        Returned (map stat_mid d, map stat_mean d, map stat_std d)
    end = Returned (drawn bandwidth d)).
  { destruct bandwidth as [bw|]; [apply smoothing_returns|reflexivity]. }
  rewrite Hsmooth. unfold series_events.
  set (tms := drawn bandwidth d) in *.
  step_stats. rewrite bool_decide_eq_true_2 by (symmetry; exact Hm).
  rewrite !elementwise_same_length by (rewrite Hm, Hs; reflexivity).
  cbn [fst snd]. rewrite <- app_assoc. reflexivity.
Qed.

(** *** The loop and the legend *)

Lemma loop_spec_stats (bandwidth : option R)
    (gs : list (string * list StatRow)) :
  forall st : stats_state,
    for_each gs (fun pd => plot_series bandwidth pd.1 pd.2) st
    = (Returned tt,
       (fold_left (fun lg g => dict_set g.1.1 g.1.2 lg) (known_groups gs)
          st.1,
        st.2 ++ flat_map (series_events bandwidth) (known_groups gs))).
Proof.
  induction gs as [|[p d] gs IH]; intros [lg tr].
  - cbn. now rewrite app_nil_r.
  - cbn [for_each]. unfold bind at 1. cbn [fst snd].
    rewrite plot_series_spec. unfold known_groups. cbn [omap list_omap fst snd].
    fold (known_groups gs).
    destruct (ot_validation_legend !! p) as [e|]; cbn [mbind option_bind].
    + rewrite IH. cbn [fst snd fold_left flat_map].
      now rewrite <- app_assoc.
    + rewrite IH. reflexivity.
Qed.

Lemma dict_set_fresh {V} (k : string) (v : V) (d : list (string * V)) :
  k ∉ map fst d -> dict_set k v d = d ++ [(k, v)].
Proof.
  induction d as [|[k0 v0] d IH]; intros Hno; [reflexivity|].
  cbn [map fst] in Hno. rewrite not_elem_of_cons in Hno.
  destruct Hno as [Hne Hno]. cbn [dict_set].
  rewrite bool_decide_eq_false_2 by congruence.
  now rewrite (IH Hno).
Qed.

Lemma legend_is_filled_in_order
    (ks : list (string * (string * string) * list StatRow)) :
  NoDup (map (fun g => g.1.1) ks) ->
  forall lg : list (string * (string * string)),
    (forall k, k ∈ map fst lg -> k ∉ map (fun g => g.1.1) ks) ->
    fold_left (fun lg g => dict_set g.1.1 g.1.2 lg) ks lg
    = lg ++ map (fun g => g.1) ks.
Proof.
  induction ks as [|[[p e] d] ks IH]; intros Hnd lg Hdis.
  - cbn. now rewrite app_nil_r.
  - cbn [map fst snd] in Hnd. apply NoDup_cons in Hnd.
    destruct Hnd as [Hp Hnd]. cbn [fold_left fst snd].
    rewrite dict_set_fresh.
    2:{ intros Hin. apply (Hdis p Hin). left. }
    rewrite IH; [now rewrite <- app_assoc|exact Hnd|].
    intros k Hk. rewrite map_app in Hk. apply elem_of_app in Hk.
    destruct Hk as [Hk|Hk].
    + intros Hin. apply (Hdis k Hk). now right.
    + cbn in Hk. apply list_elem_of_singleton in Hk. now subst k.
Qed.

Lemma known_groups_keys (gs : list (string * list StatRow)) (k : string) :
  k ∈ map (fun g => g.1.1) (known_groups gs) -> k ∈ map fst gs.
Proof.
  induction gs as [|[p d] gs IH]; [auto|].
  unfold known_groups. cbn [omap list_omap fst snd]. fold (known_groups gs).
  destruct (ot_validation_legend !! p) as [e|]; cbn [mbind option_bind map fst snd].
  - rewrite !elem_of_cons. intros [->|H]; auto.
  - rewrite elem_of_cons. auto.
Qed.

Lemma known_groups_NoDup (gs : list (string * list StatRow)) :
  NoDup (map fst gs) -> NoDup (map (fun g => g.1.1) (known_groups gs)).
Proof.
  induction gs as [|[p d] gs IH]; intros Hnd; [constructor|].
  cbn [map fst] in Hnd. apply NoDup_cons in Hnd. destruct Hnd as [Hp Hnd].
  unfold known_groups. cbn [omap list_omap fst snd]. fold (known_groups gs).
  destruct (ot_validation_legend !! p) as [e|]; cbn [mbind option_bind map fst snd].
  - constructor; [|now apply IH].
    intros Hin. apply Hp. now apply known_groups_keys.
  - now apply IH.
Qed.

(** The whole function: it returns, the legend dictionary holds the known
    series in order, and the calls are the ones of [series_events] between
    the four of the header and the one of the legend. *)
Lemma summary_stats_spec (df : list StatRow) (bandwidth : option R)
    (st : stats_state) :
  plot_ot_validation_summary_stats df bandwidth st
  = (Returned tt,
     (map (fun g => g.1) (known_series df),
      st.2
      ++ [StatsFigure 10 10; StatsTitle "OT Validation";
          StatsXlabel "time"; StatsYlabel "distance"]
      ++ flat_map (series_events bandwidth) (known_series df)
      ++ [StatsLegend
            (map (fun g => mkPatch g.1.2.1 g.1.2.2) (known_series df)) 0])).
Proof.
  destruct st as [lg tr]. unfold plot_ot_validation_summary_stats.
  change (known_series df)
    with (known_groups (group_pairs (map (fun r => (stat_name r, r)) df))).
  set (gs := group_pairs (map (fun r => (stat_name r, r)) df)).
  destruct (group_pairs_members (map (fun r => (stat_name r, r)) df))
    as (_ & Hnd & _). fold gs in Hnd.
  step_stats. rewrite loop_spec_stats. cbn [fst snd].
  rewrite (legend_is_filled_in_order _ (known_groups_NoDup gs Hnd) []).
  2:{ intros k Hk. apply elem_of_nil in Hk. destruct Hk. }
  cbn [app]. rewrite !map_map. cbn [fst snd].
  rewrite <- !app_assoc. reflexivity.
Qed.

(** *** The calls of a run *)

Lemma plot_calls_app (a b : list stats_event) :
  plot_calls (a ++ b) = plot_calls a ++ plot_calls b.
Proof. apply omap_app. Qed.

Lemma band_calls_app (a b : list stats_event) :
  band_calls (a ++ b) = band_calls a ++ band_calls b.
Proof. apply omap_app. Qed.


Lemma plot_calls_series (bandwidth : option R)
    (ks : list (string * (string * string) * list StatRow)) :
  plot_calls (flat_map (series_events bandwidth) ks)
  = map (fun g => ((drawn bandwidth g.2).1.1, (drawn bandwidth g.2).1.2,
                   g.1.2.1)) ks.
Proof.
  induction ks as [|g ks IH]; [reflexivity|].
  cbn [flat_map map]. rewrite plot_calls_app, IH. reflexivity.
Qed.

Lemma band_calls_series (bandwidth : option R)
    (ks : list (string * (string * string) * list StatRow)) :
  band_calls (flat_map (series_events bandwidth) ks)
  = map (fun g =>
           let tms := drawn bandwidth g.2 in
           (tms.1.1, zip_with Rminus tms.1.2 tms.2,
            zip_with Rplus tms.1.2 tms.2, g.1.2.1)) ks.
Proof.
  induction ks as [|g ks IH]; [reflexivity|].
  cbn [flat_map map]. rewrite band_calls_app, IH. reflexivity.
Qed.


Lemma summary_stats_plot_calls (df : list StatRow) (bandwidth : option R)
    (lg : list (string * (string * string))) :
  plot_calls (plot_ot_validation_summary_stats df bandwidth (lg, [])).2.2
  = map (fun g => ((drawn bandwidth g.2).1.1, (drawn bandwidth g.2).1.2,
                   g.1.2.1)) (known_series df).
Proof.
  rewrite summary_stats_spec. cbn [fst snd].
  rewrite !plot_calls_app, plot_calls_series. cbn. now rewrite app_nil_r.
Qed.

Lemma summary_stats_band_calls (df : list StatRow) (bandwidth : option R)
    (lg : list (string * (string * string))) :
  band_calls (plot_ot_validation_summary_stats df bandwidth (lg, [])).2.2
  = map (fun g =>
           let tms := drawn bandwidth g.2 in
           (tms.1.1, zip_with Rminus tms.1.2 tms.2,
            zip_with Rplus tms.1.2 tms.2, g.1.2.1)) (known_series df).
Proof.
  rewrite summary_stats_spec. cbn [fst snd].
  rewrite !band_calls_app, band_calls_series. cbn. now rewrite app_nil_r.
Qed.


(** *** The series that are drawn *)







(** X24: without a bandwidth the line of a series joins its midpoints and
    means as they stand in the table, and its band runs from mean minus
    deviation to mean plus deviation, row by row. *)
Theorem raw_series_are_drawn_as_given (df : list StatRow)
    (lg : list (string * (string * string))) :
  let tr := (plot_ot_validation_summary_stats df None (lg, [])).2.2 in
  plot_calls tr
  = map (fun g => (map stat_mid g.2, map stat_mean g.2, g.1.2.1))
      (known_series df)
  /\ band_calls tr
     = map (fun g =>
              (map stat_mid g.2,
               map (fun r => stat_mean r - stat_std r)%R g.2,
               map (fun r => stat_mean r + stat_std r)%R g.2,
               g.1.2.1)) (known_series df).
Proof.
  intros tr. subst tr.
  rewrite summary_stats_plot_calls, summary_stats_band_calls.
  split; [reflexivity|].
  apply map_ext. intros g. cbn [drawn fst snd].
  now rewrite !zip_with_fmap_l, !zip_with_fmap_r, !zip_with_diag.
Qed.


End PlotStatsFacts.
